(** * ABACOM USB relay board driver: a shallow embedding of [abacomrelay.c]

    The driver keeps one [usb_relayboard] object per attached board and one
    [file_additions] object per open file.  The embedding keeps both kinds of
    object in finite maps (the kernel heap and the table of open files), runs
    every entry point of the driver as a state transformer over that store,
    and records every frame handed to [usb_bulk_msg] on a wire log.

    Entry points run one at a time (the model is sequential); the semaphore
    of a device is still counted, so that a path which forgot to release it
    would be visible. *)

From stdpp Require Import base numbers option list gmap fin_maps.

Local Open Scope Z_scope.

(** ** Constants of the driver and of the kernel headers it uses *)

Definition ENOMEM : Z := 12.
Definition EFAULT : Z := 14.
Definition ENODEV : Z := 19.

Definition RELAY_CMD_LENGTH : Z := 11.

(** [#define RELAY_CMD(b) {0xa1,0x6a,0x1f,0x00,0x10,b,0x3f,0x00,0x00,0x00,0x00}] *)
Definition RELAY_CMD (b : Z) : list Z :=
  [0xa1; 0x6a; 0x1f; 0x00; 0x10; b; 0x3f; 0x00; 0x00; 0x00; 0x00].

(** ** Data model *)

(** [struct usb_relayboard].  [udev] and [interface] are handles of the USB
    core; [interface] is [None] for the C value [NULL].  [kref] is the
    reference counter and [mutex] the count of the semaphore. *)
Record usb_relayboard := mk_relayboard {
  udev : nat;
  interface : option nat;
  kref : Z;
  mutex : Z;
  relay_states : Z
}.

(** [struct file_additions]: the device an open file belongs to (an address
    in the heap) and the time of its last read, in jiffies. *)
Record file_additions := mk_additions {
  device : nat;
  last_call : Z
}.

(** One submission to [usb_bulk_msg]: the addressed USB device and the bytes. *)
Definition urb : Type := nat * list Z.

(** The store the driver works on.
    - [heap]: the live [usb_relayboard] objects by address; [kfree] deletes.
    - [next_addr]: the allocator; every [usb_relayboard] gets a new address,
      so an address names one object for ever.
    - [files]: [file->private_data] of every open file.
    - [intfdata]: [usb_set_intfdata] / [usb_get_intfdata].
    - [minors]: the minor numbers given out by [usb_register_dev].
    - [wire]: every frame submitted to [usb_bulk_msg], oldest first. *)
Record kernel := mk_kernel {
  heap : gmap nat usb_relayboard;
  next_addr : nat;
  files : gmap nat file_additions;
  intfdata : gmap nat nat;
  minors : gmap nat nat;
  wire : list urb
}.

Definition boot : kernel := mk_kernel ∅ 0%nat ∅ ∅ ∅ [].

Definition set_heap (h : gmap nat usb_relayboard) (s : kernel) : kernel :=
  mk_kernel h (next_addr s) (files s) (intfdata s) (minors s) (wire s).
Definition set_next_addr (n : nat) (s : kernel) : kernel :=
  mk_kernel (heap s) n (files s) (intfdata s) (minors s) (wire s).
Definition set_files (f : gmap nat file_additions) (s : kernel) : kernel :=
  mk_kernel (heap s) (next_addr s) f (intfdata s) (minors s) (wire s).
Definition set_intfdata (i : gmap nat nat) (s : kernel) : kernel :=
  mk_kernel (heap s) (next_addr s) (files s) i (minors s) (wire s).
Definition set_minors (m : gmap nat nat) (s : kernel) : kernel :=
  mk_kernel (heap s) (next_addr s) (files s) (intfdata s) m (wire s).
Definition set_wire (w : list urb) (s : kernel) : kernel :=
  mk_kernel (heap s) (next_addr s) (files s) (intfdata s) (minors s) w.

Definition with_interface (i : option nat) (dev : usb_relayboard) : usb_relayboard :=
  mk_relayboard (udev dev) i (kref dev) (mutex dev) (relay_states dev).
Definition with_kref (k : Z) (dev : usb_relayboard) : usb_relayboard :=
  mk_relayboard (udev dev) (interface dev) k (mutex dev) (relay_states dev).
Definition with_mutex (m : Z) (dev : usb_relayboard) : usb_relayboard :=
  mk_relayboard (udev dev) (interface dev) (kref dev) m (relay_states dev).
Definition with_relay_states (r : Z) (dev : usb_relayboard) : usb_relayboard :=
  mk_relayboard (udev dev) (interface dev) (kref dev) (mutex dev) r.

(** ** The monad of driver code

    A computation reads and writes the store and may fault ([None]): a
    dereference of a freed object, or a [down] on a semaphore nobody will
    release. *)

Definition M (A : Type) : Type := kernel → option (A * kernel).

Definition ret {A} (a : A) : M A := λ s, Some (a, s).
Definition bind {A B} (c : M A) (k : A → M B) : M B :=
  λ s, match c s with
       | Some (a, s') => k a s'
       | None => None
       end.
Definition oops {A} : M A := λ _, None.
Definition gets {A} (f : kernel → A) : M A := λ s, Some (f s, s).
Definition modify (f : kernel → kernel) : M unit := λ s, Some (tt, f s).

Notation "'do' x <- c ; k" := (bind c (λ x, k))
  (at level 10, x name, c at level 100, k at level 200).
Notation "'do' ' pat <- c ; k" := (bind c (λ x, match x with pat => k end))
  (at level 10, pat pattern, c at level 100, k at level 200).
Notation "c ;;; k" := (bind c (λ _, k))
  (at level 100, k at level 200, right associativity).

(** [if (c) goto error;] followed by the rest of the function *)
Definition unless (c : M Z) (error : M Z) (rest : M Z) : M Z :=
  do r <- c; if decide (r = 0) then rest else error.

(** [*d] for a pointer to a [usb_relayboard] *)
Definition deref (d : nat) : M usb_relayboard :=
  λ s, match heap s !! d with
       | Some dev => Some (dev, s)
       | None => None
       end.

Definition store (d : nat) (dev : usb_relayboard) : M unit :=
  modify (λ s, set_heap (<[d := dev]> (heap s)) s).

(** [down(&dev->mutex)] and [up(&dev->mutex)] *)
Definition down (d : nat) : M unit :=
  do dev <- deref d;
  if decide (0 < mutex dev) then store d (with_mutex (mutex dev - 1) dev) else oops.

Definition up (d : nat) : M unit :=
  do dev <- deref d;
  store d (with_mutex (mutex dev + 1) dev).

(** [kref_get]; [kref_put(&dev->kref, relayboard_free)] frees the object when
    the counter reaches zero. *)
Definition kref_get (d : nat) : M unit :=
  do dev <- deref d;
  store d (with_kref (kref dev + 1) dev).

Definition relayboard_free (d : nat) : M unit :=
  modify (λ s, set_heap (delete d (heap s)) s).

Definition kref_put (d : nat) : M unit :=
  do dev <- deref d;
  if decide (kref dev - 1 = 0) then relayboard_free d
  else store d (with_kref (kref dev - 1) dev).

Section Driver.

(** The tick rate and the width of [unsigned long] are configuration of the
    kernel the driver is built for. *)
Variable HZ : Z.
Variable BITS_PER_LONG : Z.

(** The transport.  [usb_bulk_msg history udev data len] is what the call
    returns after [history] has been submitted: the return code and the
    [actual_length] it stores.  Any outcome of any run is such a function,
    because the history grows with every call. *)
Variable usb_bulk_msg : list urb → nat → list Z → Z → Z * Z.

Definition ULONG_MAX : Z := 2 ^ BITS_PER_LONG - 1.
Definition RELAY_READ_FREQ_MAX : Z := HZ / 2.

Definition bulk (u : nat) (data : list Z) (len : Z) : M (Z * Z) :=
  λ s, Some (usb_bulk_msg (wire s) u data len,
             set_wire (wire s ++ [(u, take (Z.to_nat len) data)]) s).

(** ** [send_relay_cmd] *)
Definition send_relay_cmd (d : nat) (cmd : Z) : M Z :=
  do dev <- deref d;
  let transfer_bytes := RELAY_CMD cmd in
  do '(rc, actual_length) <- bulk (udev dev) transfer_bytes RELAY_CMD_LENGTH;
  if decide (rc ≠ 0) then ret (- EFAULT)
  else ret (if decide (actual_length ≠ RELAY_CMD_LENGTH) then 1 else 0).

(** ** [relayboard_send_status] *)

(** The label [error:] *)
Definition error : M Z := ret (- EFAULT).

(** [for (mask = 128; mask > 0; mask >>= 1)], entered with [mask = Z.pos p].
    A positive [mask] shifted right by one is zero for [1] and the positive
    without its last binary digit otherwise, so the loop is a recursion on
    the binary digits of [mask]; [after] is the code behind the loop. *)
Fixpoint for_mask (d : nat) (status : Z) (p : positive) (after : M Z) : M Z :=
  let mask := Z.pos p in
  let next :=
    match p with
    | xH => after
    | xO q | xI q => for_mask d status q after
    end in
  if decide (Z.land status mask ≠ 0) then
    unless (send_relay_cmd d 0x20) error (
    unless (send_relay_cmd d 0x28) error (
    unless (send_relay_cmd d 0x20) error next))
  else
    unless (send_relay_cmd d 0x00) error (
    unless (send_relay_cmd d 0x08) error (
    unless (send_relay_cmd d 0x00) error next)).

(** The parameter [status] is a [__u8]: whatever is passed arrives modulo
    256. *)
Definition relayboard_send_status (d : nat) (status : Z) : M Z :=
  let status := status mod 256 in
  unless (send_relay_cmd d 0x00) error (
  for_mask d status 128 (
  unless (send_relay_cmd d 0x00) error (
  unless (send_relay_cmd d 0x01) error (
  do dev <- deref d;
  store d (with_relay_states status dev);;;
  ret 0)))).

(** ** Library functions the driver calls *)

Definition isdigit (c : Z) : bool := (48 <=? c) && (c <=? 57).

(** [simple_strtoul(cp, NULL, 10)] of the kernel library: the leading decimal
    digits of [cp], accumulated in an [unsigned long]; [result] is the value
    read so far.  The scan ends at the first byte that is no digit. *)
Fixpoint simple_strtoul (cp : list Z) (result : Z) : Z :=
  match cp with
  | c :: cp' =>
      if isdigit c
      then simple_strtoul cp' ((result * 10 + (c - 48)) mod (ULONG_MAX + 1))
      else result
  | [] => result
  end.

(** The digits of a non-negative [n] in front of [acc]; an [int] has at most
    ten of them. *)
Fixpoint put_dec (fuel : nat) (n : Z) (acc : list Z) : list Z :=
  match fuel with
  | O => acc
  | S fuel' =>
      let acc' := (48 + n mod 10) :: acc in
      if decide (n / 10 = 0) then acc' else put_dec fuel' (n / 10) acc'
  end.

(** [snprintf(buf, size, "%d\n", n)]: the text left in [buf], without the
    closing NUL; at most [size - 1] bytes. *)
Definition snprintf_d_nl (size : Z) (n : Z) : list Z :=
  let text :=
    (if decide (n < 0) then 45 :: put_dec 10 (- n) [] else put_dec 10 n []) ++ [10] in
  take (Z.to_nat (size - 1)) text.

Definition strlen (str : list Z) : Z := Z.of_nat (length str).

(** [copy_to_user(to, from, n)] returns the number of bytes it could not
    copy; [writable] is how many bytes of the caller's buffer can be written. *)
Definition copy_to_user (writable : Z) (n : Z) : Z := Z.max 0 (n - Z.max 0 writable).

(** ** Handles of the USB core and of the file layer *)

Definition usb_get_intfdata (intf : nat) : M (option nat) :=
  gets (λ s, intfdata s !! intf).

Definition usb_set_intfdata (intf : nat) (data : option nat) : M unit :=
  modify (λ s, set_intfdata (match data with
                             | Some d => <[intf := d]> (intfdata s)
                             | None => delete intf (intfdata s)
                             end) s).

(** [usb_register_dev]: the USB core either refuses with an error code or
    hands out a minor number. *)
Definition usb_register_dev (intf : nat) (outcome : Z + nat) : M Z :=
  match outcome with
  | inl e => ret e
  | inr minor => modify (λ s, set_minors (<[minor := intf]> (minors s)) s);;; ret 0
  end.

Definition usb_deregister_dev (intf : nat) : M unit :=
  modify (λ s, set_minors (filter (λ kv, kv.2 ≠ intf) (minors s)) s).

Definition usb_find_interface (minor : nat) : M (option nat) :=
  gets (λ s, minors s !! minor).

(** [file->private_data]; a file the driver never opened has none. *)
Definition private_data (file : nat) : M file_additions :=
  λ s, match files s !! file with
       | Some infos => Some (infos, s)
       | None => None
       end.

Definition set_private_data (file : nat) (infos : file_additions) : M unit :=
  modify (λ s, set_files (<[file := infos]> (files s)) s).

(** [kzalloc(sizeof(struct usb_relayboard), GFP_KERNEL)]: a zeroed object at
    a new address. *)
Definition kzalloc_relayboard : M nat :=
  λ s, let d := next_addr s in
       Some (d, set_next_addr (S d)
                  (set_heap (<[d := mk_relayboard 0%nat None 0 0 0]> (heap s)) s)).

(** ** Attach and detach *)

(** What [relayboard_probe] reads from the descriptors of the device. *)
Record usb_device := mk_usb_device {
  usb_id : nat;
  bNumConfigurations : Z;
  bMaxPower : Z;
  bNumInterfaces : Z;
  bNumEndpoints : Z
}.

Definition relayboard_probe (intf : nat) (device : usb_device)
    (kzalloc_ok : bool) (registration : Z + nat) : M Z :=
  if decide (bNumConfigurations device = 1
             ∧ bMaxPower device = 48
             ∧ bNumInterfaces device = 1
             ∧ bNumEndpoints device = 3) then
    if kzalloc_ok then
      do d <- kzalloc_relayboard;
      (do dev <- deref d; store d (with_kref 1 dev));;;                  (* kref_init *)
      (do dev <- deref d; store d (with_mutex 1 dev));;;                 (* sema_init *)
      (do dev <- deref d;
       store d (mk_relayboard (usb_id device) (interface dev) (kref dev)
                              (mutex dev) (relay_states dev)));;;
      (do dev <- deref d; store d (with_interface (Some intf) dev));;;
      usb_set_intfdata intf (Some d);;;
      do result <- usb_register_dev intf registration;
      (if decide (result ≠ 0) then
         usb_set_intfdata intf None;;;
         kref_put d
       else ret tt);;;
      ret result
    else ret (- ENOMEM)
  else ret (- ENODEV).

Definition relayboard_disconnect (intf : nat) : M unit :=
  do data <- usb_get_intfdata intf;
  match data with
  | None => oops
  | Some d =>
      down d;;;
      usb_set_intfdata intf None;;;
      usb_deregister_dev intf;;;
      (do dev <- deref d; store d (with_interface None dev));;;
      up d;;;
      kref_put d
  end.

(** ** The system calls *)

Definition relayboard_open (minor : nat) (file : nat) (kzalloc_ok : bool) : M Z :=
  do found <- usb_find_interface minor;
  match found with
  | None => ret (- ENODEV)
  | Some intf =>
      do data <- usb_get_intfdata intf;
      match data with
      | None => ret (- ENODEV)
      | Some d =>
          kref_get d;;;
          if kzalloc_ok then
            set_private_data file (mk_additions d 0);;;
            ret 0
          else ret (- ENOMEM)
      end
  end.

(** [relayboard_close].  [infos->device] is set by every [open] that stores
    [infos], so the test for [NULL] never fires and has no counterpart. *)
Definition relayboard_close (file : nat) : M Z :=
  do infos <- private_data file;
  let d := device infos in
  kref_put d;;;
  modify (λ s, set_files (delete file (files s)) s);;;                   (* kfree(infos) *)
  ret 0.

(** [relayboard_write].  [count] is the length of [user_buffer].  The local
    copy is not terminated, so [simple_strtoul] runs on into [slack], the
    bytes that lie behind the copy in kernel memory.  The result is the
    [ssize_t] the caller gets: [count = -EFAULT] in a [size_t] comes back as
    [-EFAULT].

    For [count = 0], [kzalloc] returns [ZERO_SIZE_PTR], which is not [NULL],
    and [copy_from_user] has nothing to copy and returns 0: the code goes on
    to [simple_strtoul], which reads through that pointer, and faults. *)
Definition relayboard_write (file : nat) (user_buffer : list Z)
    (kzalloc_ok copy_ok : bool) (slack : list Z) : M Z :=
  let count := Z.of_nat (length user_buffer) in
  do infos <- private_data file;
  let d := device infos in
  if decide (count = 0) then oops
  else if negb kzalloc_ok then ret (- ENOMEM)
  else if negb copy_ok then ret (- EFAULT)
  else
    let local_buffer := user_buffer ++ slack in
    let user_data := simple_strtoul local_buffer 0 mod 256 in
    down d;;;
    do failed <- relayboard_send_status d user_data;
    let count := if decide (failed ≠ 0) then - EFAULT else count in
    up d;;;
    ret count.

(** [relayboard_read]: the return value and the bytes that reached the
    caller's buffer. *)
Definition relayboard_read (file : nat) (count : Z) (jiffies : Z)
    (writable : Z) : M (Z * list Z) :=
  let timestamp := jiffies in
  if decide (count < 4) then ret (0, [])
  else
    do infos <- private_data file;
    let time_passed :=
      if decide (last_call infos > timestamp)
      then ULONG_MAX - last_call infos + timestamp + 1
      else timestamp - last_call infos in
    if decide (time_passed < RELAY_READ_FREQ_MAX) then ret (0, [])
    else
      let d := device infos in
      down d;;;
      do dev <- deref d;
      let state_str := snprintf_d_nl 5 (relay_states dev) in
      let count := strlen state_str in
      let count := count - copy_to_user writable count in
      set_private_data file (mk_additions (device infos) timestamp);;;
      up d;;;
      ret (count, take (Z.to_nat count) state_str).

(** ** The driver as a transition system *)

Inductive call :=
| Probe (intf : nat) (device : usb_device) (kzalloc_ok : bool) (registration : Z + nat)
| Disconnect (intf : nat)
| Open (minor file : nat) (kzalloc_ok : bool)
| Close (file : nat)
| Write (file : nat) (user_buffer : list Z) (kzalloc_ok copy_ok : bool) (slack : list Z)
| Read (file : nat) (count jiffies writable : Z).

(** What the kernel guarantees when it calls the driver: an interface is
    probed only while it is unbound and gets a minor that is free; a file
    handed to [open] is new. ([disconnect] is called for bound interfaces and
    the other system calls for open files; there the driver faults by itself
    when the guarantee is broken.) *)
Definition kernel_contract (c : call) (s : kernel) : Prop :=
  match c with
  | Probe intf _ _ registration =>
      intfdata s !! intf = None
      ∧ match registration with
        | inl e => e ≠ 0
        | inr minor => minors s !! minor = None
        end
  | Open _ file _ => files s !! file = None
  | _ => True
  end.

#[local] Instance kernel_contract_dec c s : Decision (kernel_contract c s).
Proof. destruct c as [? ? ? []| | | | |]; simpl; apply _. Defined.

Definition step (c : call) : M (Z * list Z) :=
  λ s,
    if decide (kernel_contract c s) then
      match c with
      | Probe intf device ok registration =>
          (do r <- relayboard_probe intf device ok registration; ret (r, [])) s
      | Disconnect intf => (relayboard_disconnect intf;;; ret (0, [])) s
      | Open minor file ok => (do r <- relayboard_open minor file ok; ret (r, [])) s
      | Close file => (do r <- relayboard_close file; ret (r, [])) s
      | Write file user_buffer ok1 ok2 slack =>
          (do r <- relayboard_write file user_buffer ok1 ok2 slack; ret (r, [])) s
      | Read file count jiffies writable => relayboard_read file count jiffies writable s
      end
    else None.

Fixpoint run (cs : list call) (s : kernel) : option (list (Z * list Z) * kernel) :=
  match cs with
  | [] => Some ([], s)
  | c :: cs' =>
      match step c s with
      | Some (r, s') =>
          match run cs' s' with
          | Some (rs, s'') => Some (r :: rs, s'')
          | None => None
          end
      | None => None
      end
  end.

(** ** The wire protocol as a table

    The command sequence of one commit, written down from its description:
    a header frame, one triple of frames for each relay from the one of
    value 128 down to the one of value 1, and two trailer frames. *)

Definition encode (payload : Z) : list Z :=
  [0xa1; 0x6a; 0x1f; 0x00; 0x10; payload; 0x3f; 0x00; 0x00; 0x00; 0x00].

Definition bit_values : list Z := [128; 64; 32; 16; 8; 4; 2; 1].

Definition bit_triple (targetMask value : Z) : list Z :=
  if Z.testbit targetMask (Z.log2 value) then [0x20; 0x28; 0x20] else [0x00; 0x08; 0x00].

Definition commit_payloads (targetMask : Z) : list Z :=
  [0x00] ++ concat (bit_triple targetMask <$> bit_values) ++ [0x00; 0x01].

Definition commit_frames (targetMask : Z) : list (list Z) :=
  encode <$> commit_payloads targetMask.

(** The payloads in the order in which [for_mask] reaches them. *)
Fixpoint for_mask_payloads (status : Z) (p : positive) : list Z :=
  (if decide (Z.land status (Z.pos p) ≠ 0) then [0x20; 0x28; 0x20] else [0x00; 0x08; 0x00])
  ++ match p with
     | xH => []
     | xO q | xI q => for_mask_payloads status q
     end.

(** A send counts as acknowledged when [usb_bulk_msg] returns zero and
    reports the full frame length. *)
Definition acked (r : Z * Z) : bool :=
  bool_decide (r.1 = 0 ∧ r.2 = RELAY_CMD_LENGTH).

(** Submitting [frames] to device [u] one after the other on top of the
    history [w], giving up at the first one that is not acknowledged:
    whether all were acknowledged, and the history afterwards. *)
Fixpoint transmit (u : nat) (frames : list (list Z)) (w : list urb) : bool * list urb :=
  match frames with
  | [] => (true, w)
  | f :: frames' =>
      let w' := w ++ [(u, f)] in
      if acked (usb_bulk_msg w u f RELAY_CMD_LENGTH) then transmit u frames' w' else (false, w')
  end.

(** Whether frame number [k] (counted from 1) of [frames] is acknowledged
    when the frames before it have been submitted on top of [w]. *)
Definition frame_acked (u : nat) (frames : list (list Z)) (w : list urb) (k : nat) : bool :=
  match frames !! pred k with
  | Some f => acked (usb_bulk_msg (w ++ (pair u <$> take (pred k) frames)) u f RELAY_CMD_LENGTH)
  | None => true
  end.

(** A continuation [code] submits [frames] and goes on with [fin]. *)
Definition submits (d : nat) (dev : usb_relayboard) (frames : list (list Z))
    (fin code : M Z) : Prop :=
  ∀ s, heap s !! d = Some dev →
    code s = match transmit (udev dev) frames (wire s) with
             | (true, w) => fin (set_wire w s)
             | (false, w) => Some (- EFAULT, set_wire w s)
             end.

(** ** Text of a mask

    The integer an ASCII decimal string denotes, and what it means for a
    list of bytes to be such a string. *)

Definition decimal_from (acc : Z) (digits : list Z) : Z :=
  fold_left (λ n c, n * 10 + (c - 48)) digits acc.

Definition decimal_value (digits : list Z) : Z := decimal_from 0 digits.

Definition is_decimal (digits : list Z) : Prop :=
  digits ≠ [] ∧ Forall (λ c, 48 ≤ c ≤ 57) digits.

(** The parse of a write ends where the payload ends when the byte behind
    the payload is no digit. *)
Definition terminated (slack : list Z) : Prop :=
  match slack with
  | [] => True
  | c :: _ => isdigit c = false
  end.

(** The mask [relayboard_write] hands to [relayboard_send_status]. *)
Definition write_mask (user_buffer slack : list Z) : Z :=
  simple_strtoul (user_buffer ++ slack) 0 mod 256.

(** The time [relayboard_read] takes to have passed since [last]. *)
Definition time_passed (last timestamp : Z) : Z :=
  if decide (last > timestamp)
  then ULONG_MAX - last + timestamp + 1
  else timestamp - last.

(** ** Reachable states and what holds in them *)

Inductive reachable : kernel → Prop :=
| reachable_boot : reachable boot
| reachable_step c s r s' : reachable s → step c s = Some (r, s') → reachable s'.

(** The number of open files on the device at address [d]. *)
Definition handles (d : nat) (s : kernel) : Z :=
  Z.of_nat (size (filter (λ kv, device kv.2 = d) (files s))).

(** The reference of the driver itself, held from [probe] to [disconnect]. *)
Definition registration (dev : usb_relayboard) : Z :=
  match interface dev with
  | Some _ => 1
  | None => 0
  end.

Record consistent (s : kernel) : Prop := mk_consistent {
  files_live : ∀ file infos,
    files s !! file = Some infos → is_Some (heap s !! device infos);
  heap_counted : ∀ d dev,
    heap s !! d = Some dev → 1 ≤ kref dev ∧ registration dev + handles d s ≤ kref dev;
  heap_unlocked : ∀ d dev, heap s !! d = Some dev → mutex dev = 1;
  heap_byte : ∀ d dev, heap s !! d = Some dev → 0 ≤ relay_states dev < 256;
  heap_below : ∀ d, is_Some (heap s !! d) → (d < next_addr s)%nat;
  intfdata_bound : ∀ intf d,
    intfdata s !! intf = Some d →
    ∃ dev, heap s !! d = Some dev ∧ interface dev = Some intf;
  interface_bound : ∀ d dev intf,
    heap s !! d = Some dev → interface dev = Some intf → intfdata s !! intf = Some d
}.

(** [c] is a write through a file on the device at [d]. *)
Definition writes_to (d : nat) (c : call) (s : kernel) : Prop :=
  match c with
  | Write file _ _ _ _ => device <$> files s !! file = Some d
  | _ => False
  end.

(** A run of the driver in which no write to the device at [d] succeeds. *)
Inductive no_commit (d : nat) : kernel → kernel → Prop :=
| no_commit_refl s : no_commit d s s
| no_commit_step c s r s' s'' :
    step c s = Some (r, s') →
    (writes_to d c s → r.1 < 0) →
    no_commit d s' s'' →
    no_commit d s s''.

(** What a file contributes to the count of the device at [d]. *)
Definition weight (d : nat) (infos : option file_additions) : Z :=
  match infos with
  | Some infos => if decide (device infos = d) then 1 else 0
  | None => 0
  end.

(** The text printed for the byte [m] is a decimal string followed by a
    newline, and the string denotes [m]. *)
Definition printed_byte_ok (m : Z) : Prop :=
  let text := snprintf_d_nl 5 m in
  let digits := take (pred (length text)) text in
  text = digits ++ [10]
  ∧ (digits ≠ [] ∧ Forall (λ c, 48 ≤ c ≤ 57) digits)
  ∧ decimal_value digits = m.

#[local] Instance printed_byte_ok_dec m : Decision (printed_byte_ok m).
Proof. unfold printed_byte_ok. apply _. Defined.

(** Every reference is accounted for: the counter of each device is the
    reference of the driver plus one per open file. *)
Definition exact_count (s : kernel) : Prop :=
  ∀ d dev, heap s !! d = Some dev → kref dev = registration dev + handles d s.

(** An [open] whose allocation of [file_additions] fails. *)
Definition failed_alloc (c : call) : Prop :=
  match c with
  | Open _ _ false => True
  | _ => False
  end.

(** The states reached by runs in which no allocation in [open] fails. *)
Inductive reachable_clean : kernel → Prop :=
| reachable_clean_boot : reachable_clean boot
| reachable_clean_step c s r s' :
    reachable_clean s → ¬ failed_alloc c → step c s = Some (r, s') → reachable_clean s'.

(** The calls the kernel can make in a state: besides [kernel_contract],
    [disconnect] comes for a bound interface only, and [close], [write] and
    [read] come for open files only. *)
Definition admissible (c : call) (s : kernel) : Prop :=
  kernel_contract c s
  ∧ match c with
    | Disconnect intf => is_Some (intfdata s !! intf)
    | Close file | Write file _ _ _ _ | Read file _ _ _ => is_Some (files s !! file)
    | _ => True
    end.

(** A write of zero bytes. *)
Definition empty_write (c : call) : Prop :=
  match c with
  | Write _ [] _ _ _ => True
  | _ => False
  end.

(** A call that can reach the transport: a write whose buffer is allocated
    and copied. *)
Definition transmits (c : call) : Prop :=
  match c with
  | Write _ _ true true _ => True
  | _ => False
  end.

(** A call that gives back a reference to the device at [d]: the disconnect
    of its interface, or the close of a file open on it. *)
Definition releases (d : nat) (c : call) (s : kernel) : Prop :=
  match c with
  | Disconnect intf => intfdata s !! intf = Some d
  | Close file => device <$> files s !! file = Some d
  | _ => False
  end.

(** The state after a run from [boot]. *)
Definition after (cs : list call) : kernel :=
  match run cs boot with
  | Some (_, s) => s
  | None => boot
  end.

(** ** Concrete surroundings for examples

    A board that passes the test of [relayboard_probe], a transport that
    acknowledges every frame, one that refuses every frame, as the USB core
    does for a device that is gone, and one that cuts frame number [k] of a
    run short. *)
Definition board : usb_device := mk_usb_device 7%nat 1 48 1 3.

Definition ack_all : list urb → nat → list Z → Z → Z * Z :=
  λ _ _ _ len, (0, len).

Definition dead_bus : list urb → nat → list Z → Z → Z * Z :=
  λ _ _ _ _, (- ENODEV, 0).

Definition short_at (k : nat) : list urb → nat → list Z → Z → Z * Z :=
  λ history _ _ len, if decide (length history = pred k) then (0, len - 4) else (0, len).

(** * The wire protocol *)

Lemma set_wire_id s : set_wire (wire s) s = s.
Proof. by destruct s. Qed.

Lemma send_relay_cmd_eq d dev cmd s :
  heap s !! d = Some dev →
  send_relay_cmd d cmd s =
    Some (let r := usb_bulk_msg (wire s) (udev dev) (RELAY_CMD cmd) RELAY_CMD_LENGTH in
          if decide (r.1 ≠ 0) then - EFAULT
          else if decide (r.2 ≠ RELAY_CMD_LENGTH) then 1 else 0,
          set_wire (wire s ++ [(udev dev, RELAY_CMD cmd)]) s).
Proof.
  intros Hd. unfold send_relay_cmd, bind, deref, bulk. rewrite Hd.
  destruct (usb_bulk_msg _ _ _ _) as [rc len]; simpl.
  by destruct (decide (rc ≠ 0)).
Qed.

Lemma submits_nil d dev fin : submits d dev [] fin fin.
Proof. intros s _. simpl. by rewrite set_wire_id. Qed.

Lemma submits_cons d dev cmd frames fin code :
  submits d dev frames fin code →
  submits d dev (RELAY_CMD cmd :: frames) fin (unless (send_relay_cmd d cmd) error code).
Proof.
  intros Hcode s Hd. unfold unless, bind. rewrite (send_relay_cmd_eq d dev) by done.
  simpl. unfold acked.
  destruct (usb_bulk_msg _ _ _ _) as [rc len]; simpl.
  destruct (decide (rc ≠ 0)) as [Hrc|Hrc].
  - rewrite decide_False by (unfold EFAULT; lia).
    rewrite bool_decide_eq_false_2 by tauto. done.
  - destruct (decide (len ≠ RELAY_CMD_LENGTH)) as [Hlen|Hlen].
    + rewrite decide_False by lia.
      rewrite bool_decide_eq_false_2 by tauto. done.
    + rewrite decide_True by done.
      rewrite bool_decide_eq_true_2 by (split; [lia | by apply dec_stable]).
      rewrite Hcode by done. simpl.
      by destruct (transmit _ _ _) as [[] w].
Qed.

Lemma submits_for_mask d dev status p frames fin after :
  submits d dev frames fin after →
  submits d dev ((RELAY_CMD <$> for_mask_payloads status p) ++ frames) fin
          (for_mask d status p after).
Proof.
  intros Hafter. induction p as [q IH|q IH|]; simpl;
    destruct (decide (Z.land status _ ≠ 0)); simpl;
    repeat apply submits_cons; done.
Qed.

Lemma land_bit a i :
  0 ≤ i → Z.land a (2 ^ i) ≠ 0 ↔ Z.testbit a i = true.
Proof.
  intros Hi. destruct (Z.testbit a i) eqn:Hbit.
  - split; [done|]. intros _ Hz.
    assert (Z.testbit (Z.land a (2 ^ i)) i = true) as Ht.
    { rewrite Z.land_spec, Hbit, Z.pow2_bits_true; done. }
    rewrite Hz, Z.bits_0 in Ht. done.
  - split; [|done]. intros Hz. exfalso. apply Hz.
    apply Z.bits_inj'. intros n Hn.
    rewrite Z.land_spec, Z.bits_0.
    destruct (decide (n = i)) as [->|Hne].
    + by rewrite Hbit.
    + rewrite (Z.pow2_bits_false i n) by done. apply andb_false_r.
Qed.

Lemma for_mask_bit_triple (status value i : Z) (A : Type) (x y : A) :
  value = 2 ^ i → 0 ≤ i →
  (if decide (Z.land status value ≠ 0) then x else y)
  = (if Z.testbit status i then x else y).
Proof.
  intros -> Hi. pose proof (land_bit status i Hi) as Hbit.
  destruct (decide _) as [Hz|Hz], (Z.testbit status i); try done.
  - apply Hbit in Hz. done.
  - exfalso. apply Hz, Hbit. done.
Qed.

Lemma for_mask_payloads_128 status :
  for_mask_payloads status 128 = concat (bit_triple status <$> bit_values).
Proof.
  unfold bit_values, bit_triple. cbn -[Z.testbit Z.land].
  rewrite (for_mask_bit_triple status 128 7), (for_mask_bit_triple status 64 6),
    (for_mask_bit_triple status 32 5), (for_mask_bit_triple status 16 4),
    (for_mask_bit_triple status 8 3), (for_mask_bit_triple status 4 2),
    (for_mask_bit_triple status 2 1), (for_mask_bit_triple status 1 0)
    by (reflexivity || lia).
  by rewrite app_nil_r.
Qed.

Lemma commit_frames_length targetMask : length (commit_frames targetMask) = 27%nat.
Proof.
  unfold commit_frames, commit_payloads, bit_values, bit_triple.
  rewrite length_fmap. cbn -[Z.testbit].
  repeat (destruct (Z.testbit targetMask _); cbn -[Z.testbit]); done.
Qed.

Lemma frame_acked_cons u f frames w k :
  frame_acked u (f :: frames) w (S (S k)) = frame_acked u frames (w ++ [(u, f)]) (S k).
Proof.
  unfold frame_acked. simpl. destruct (frames !! k); [|done].
  by rewrite <- app_assoc.
Qed.

Lemma transmit_prefix u frames w :
  ∃ n, (n ≤ length frames)%nat
       ∧ (transmit u frames w).2 = w ++ (pair u <$> take n frames)
       ∧ ((transmit u frames w).1 = true → n = length frames)
       ∧ (frames ≠ [] → (1 ≤ n)%nat).
Proof.
  revert w. induction frames as [|f frames IH]; intros w.
  - exists 0%nat. simpl. by rewrite app_nil_r.
  - simpl. destruct (acked _).
    + destruct (IH (w ++ [(u, f)])) as (n & Hn & Hw & Hok & _).
      exists (S n). simpl. rewrite Hw, <- app_assoc. split_and!; auto with lia.
    + exists 1%nat. simpl. rewrite ?take_0. split_and!; auto with lia.
Qed.

Lemma transmit_acked u frames w :
  (∀ k, (1 ≤ k ≤ length frames)%nat → frame_acked u frames w k = true) →
  transmit u frames w = (true, w ++ (pair u <$> frames)).
Proof.
  revert w. induction frames as [|f frames IH]; intros w Hall.
  - simpl. by rewrite app_nil_r.
  - simpl. pose proof (Hall 1%nat) as H1. unfold frame_acked in H1. simpl in H1.
    rewrite app_nil_r in H1. rewrite H1 by lia.
    rewrite IH.
    + by rewrite <- app_assoc.
    + intros k Hk. destruct k as [|k]; [lia|].
      rewrite <- frame_acked_cons. apply Hall. simpl. lia.
Qed.

Lemma transmit_failed u frames w k :
  (1 ≤ k ≤ length frames)%nat →
  (∀ j, (1 ≤ j < k)%nat → frame_acked u frames w j = true) →
  frame_acked u frames w k = false →
  transmit u frames w = (false, w ++ (pair u <$> take k frames)).
Proof.
  revert w k. induction frames as [|f frames IH]; intros w k Hk Hbefore Hfail.
  - simpl in Hk. lia.
  - destruct k as [|[|k]]; [lia| |].
    + unfold frame_acked in Hfail. simpl in Hfail. rewrite app_nil_r in Hfail.
      simpl. rewrite Hfail. by rewrite ?take_0.
    + simpl. pose proof (Hbefore 1%nat) as H1. unfold frame_acked in H1. simpl in H1.
      rewrite app_nil_r in H1. rewrite H1 by lia.
      rewrite (IH _ (S k)).
      * by rewrite <- app_assoc.
      * simpl in Hk. lia.
      * intros j Hj. destruct j as [|j]; [lia|].
        rewrite <- frame_acked_cons. apply Hbefore. lia.
      * by rewrite <- frame_acked_cons.
Qed.

(** Either every frame is acknowledged, or there is a first one that is
    not. *)
Lemma frame_ack_cases u frames w :
  (∀ k, (1 ≤ k ≤ length frames)%nat → frame_acked u frames w k = true)
  ∨ ∃ k, (1 ≤ k ≤ length frames)%nat
         ∧ (∀ j, (1 ≤ j < k)%nat → frame_acked u frames w j = true)
         ∧ frame_acked u frames w k = false.
Proof.
  revert w. induction frames as [|f frames IH]; intros w.
  - left. simpl. lia.
  - destruct (frame_acked u (f :: frames) w 1) eqn:H1; first last.
    { right. exists 1%nat. simpl. split_and!; [lia..| |done]. lia. }
    destruct (IH (w ++ [(u, f)])) as [Hall|(k & Hk & Hbefore & Hfail)].
    + left. intros [|[|k]] Hk; [lia|done|].
      rewrite frame_acked_cons. apply Hall. simpl in Hk. lia.
    + right. exists (S k). destruct k as [|k]; [lia|]. simpl. split_and!; [lia..| |].
      * intros [|[|j]] Hj; [lia|done|]. rewrite frame_acked_cons. apply Hbefore. lia.
      * by rewrite frame_acked_cons.
Qed.

Lemma bit_triple_inj (b b' : bool) (l l' : list Z) :
  (if b then [0x20; 0x28; 0x20] else [0x00; 0x08; 0x00]) ++ l
  = (if b' then [0x20; 0x28; 0x20] else [0x00; 0x08; 0x00]) ++ l' →
  b = b' ∧ l = l'.
Proof. destruct b, b'; simpl; intros H; by simplify_eq. Qed.

Lemma encode_inj p q : encode p = encode q → p = q.
Proof. unfold encode. intros H. by simplify_eq. Qed.

Lemma payloads_inj (b1 b2 : Z → bool) :
  [0x00] ++ concat ((λ v, if b1 v then [0x20; 0x28; 0x20] else [0x00; 0x08; 0x00])
                    <$> bit_values) ++ [0x00; 0x01]
  = [0x00] ++ concat ((λ v, if b2 v then [0x20; 0x28; 0x20] else [0x00; 0x08; 0x00])
                      <$> bit_values) ++ [0x00; 0x01] →
  Forall (λ v, b1 v = b2 v) bit_values.
Proof.
  unfold bit_values. cbn [fmap list_fmap concat app]. intros Hp. injection Hp as Hp.
  rewrite <- !app_assoc in Hp.
  repeat (apply bit_triple_inj in Hp as [? Hp]).
  repeat (apply Forall_cons; split; [done|]). apply Forall_nil_2.
Qed.

Lemma commit_frames_bits m1 m2 :
  commit_frames m1 = commit_frames m2 →
  ∀ i, 0 ≤ i < 8 → Z.testbit m1 i = Z.testbit m2 i.
Proof.
  unfold commit_frames. intros H.
  assert (commit_payloads m1 = commit_payloads m2) as Hp.
  { revert H. generalize (commit_payloads m1) (commit_payloads m2).
    induction l as [|p l IH]; intros [|q l'] H; simpl in H; try done.
    injection H as Hpq Hl. f_equal; [first [done|by apply encode_inj]|by apply IH]. }
  clear H.
  apply (payloads_inj (λ v, Z.testbit m1 (Z.log2 v)) (λ v, Z.testbit m2 (Z.log2 v))) in Hp.
  unfold bit_values in Hp.
  repeat (apply Forall_cons in Hp as [? Hp]).
  change (Z.log2 128) with 7 in *. change (Z.log2 64) with 6 in *.
  change (Z.log2 32) with 5 in *. change (Z.log2 16) with 4 in *.
  change (Z.log2 8) with 3 in *. change (Z.log2 4) with 2 in *.
  change (Z.log2 2) with 1 in *. change (Z.log2 1) with 0 in *.
  intros i Hi.
  assert (i = 0 ∨ i = 1 ∨ i = 2 ∨ i = 3 ∨ i = 4 ∨ i = 5 ∨ i = 6 ∨ i = 7) as Hcases by lia.
  destruct Hcases as [->|[->|[->|[->|[->|[->|[->| ->]]]]]]]; done.
Qed.

(** The frame table looks at the low 8 bits of the mask only, and these it
    determines. *)
Lemma commit_frames_inj m1 m2 :
  commit_frames m1 = commit_frames m2 ↔ m1 mod 256 = m2 mod 256.
Proof.
  split.
  - intros H. pose proof (commit_frames_bits _ _ H) as Hbits.
    apply Z.bits_inj'. intros n Hn. change 256 with (2 ^ 8).
    destruct (decide (n < 8)).
    + rewrite !Z.mod_pow2_bits_low by lia. apply Hbits. lia.
    + rewrite !Z.mod_pow2_bits_high by lia. done.
  - intros H.
    assert (∀ i, 0 ≤ i < 8 → Z.testbit m1 i = Z.testbit m2 i) as Hbits.
    { intros i Hi. rewrite <- (Z.mod_pow2_bits_low m1 8), <- (Z.mod_pow2_bits_low m2 8) by lia.
      change (2 ^ 8) with 256. by rewrite H. }
    unfold commit_frames, commit_payloads, bit_values, bit_triple.
    cbn [fmap list_fmap concat].
    change (Z.log2 128) with 7. change (Z.log2 64) with 6.
    change (Z.log2 32) with 5. change (Z.log2 16) with 4.
    change (Z.log2 8) with 3. change (Z.log2 4) with 2.
    change (Z.log2 2) with 1. change (Z.log2 1) with 0.
    rewrite (Hbits 7), (Hbits 6), (Hbits 5), (Hbits 4), (Hbits 3), (Hbits 2),
      (Hbits 1), (Hbits 0) by lia. done.
Qed.

(** [relayboard_send_status] is the transmission of the frame table,
    followed by the update of [relay_states] when every frame went through. *)
Lemma relayboard_send_status_eq d dev status s :
  heap s !! d = Some dev →
  relayboard_send_status d status s =
    match transmit (udev dev) (commit_frames status) (wire s) with
    | (true, w) =>
        Some (0, set_heap (<[d := with_relay_states (status mod 256) dev]> (heap s))
                   (set_wire w s))
    | (false, w) => Some (- EFAULT, set_wire w s)
    end.
Proof.
  intros Hd.
  assert (commit_frames status = commit_frames (status mod 256)) as ->.
  { apply commit_frames_inj. by rewrite Z.mod_mod. }
  unfold relayboard_send_status. cbv zeta. generalize (status mod 256). intros m.
  set (fin := (do dev' <- deref d; store d (with_relay_states m dev');;; ret 0) : M Z).
  assert (submits d dev (commit_frames m) fin
            (unless (send_relay_cmd d 0x00) error (
             for_mask d m 128 (
             unless (send_relay_cmd d 0x00) error (
             unless (send_relay_cmd d 0x01) error fin))))) as Hsub.
  { unfold commit_frames, commit_payloads. rewrite <- for_mask_payloads_128.
    rewrite !fmap_app. cbn [fmap list_fmap app]. change encode with RELAY_CMD.
    apply submits_cons, submits_for_mask. repeat apply submits_cons. apply submits_nil. }
  rewrite Hsub by done.
  destruct (transmit _ _ _) as [[] w]; [|done].
  unfold fin, bind, deref, store, modify, ret. simpl. by rewrite Hd.
Qed.

(** * The system calls, as equations on the store *)

Lemma count_nonzero (user_buffer : list Z) :
  user_buffer ≠ [] → Z.of_nat (length user_buffer) ≠ 0.
Proof. destruct user_buffer; [done|]. simpl. lia. Qed.

Lemma relayboard_write_eq file infos dev user_buffer slack s :
  user_buffer ≠ [] →
  files s !! file = Some infos →
  heap s !! device infos = Some dev →
  0 < mutex dev →
  relayboard_write file user_buffer true true slack s =
    match transmit (udev dev) (commit_frames (write_mask user_buffer slack)) (wire s) with
    | (true, w) =>
        Some (Z.of_nat (length user_buffer),
              set_heap (<[device infos := with_relay_states (write_mask user_buffer slack) dev]> (heap s))
                       (set_wire w s))
    | (false, w) => Some (- EFAULT, set_wire w s)
    end.
Proof.
  intros Hne Hfile Hdev Hmutex.
  unfold relayboard_write, bind, private_data. rewrite Hfile.
  rewrite decide_False by by apply count_nonzero. cbn [negb].
  unfold down, bind, deref. rewrite Hdev. rewrite decide_True by done.
  unfold store, modify.
  rewrite (relayboard_send_status_eq _ (with_mutex (mutex dev - 1) dev))
    by (simpl; apply lookup_insert_eq).
  fold (write_mask user_buffer slack).
  assert (write_mask user_buffer slack mod 256 = write_mask user_buffer slack) as ->.
  { unfold write_mask. apply Z.mod_mod. done. }
  change (transmit (udev (with_mutex _ dev)) _ (wire (set_heap _ s)))
    with (transmit (udev dev) (commit_frames (write_mask user_buffer slack)) (wire s)).
  destruct (transmit _ _ _) as [[] w].
  - unfold up, bind, deref, store, modify, ret. simpl. rewrite lookup_insert_eq. simpl.
    rewrite !insert_insert_eq. unfold set_heap, set_wire. simpl.
    do 4 f_equal. destruct dev; unfold with_mutex, with_relay_states; simpl. f_equal. lia.
  - unfold up, bind, deref, store, modify, ret. simpl. rewrite lookup_insert_eq. simpl.
    rewrite !insert_insert_eq.
    destruct s as [h n f i m w0]; simpl in *. unfold set_wire, set_heap; simpl. do 3 f_equal.
    apply insert_id. rewrite Hdev. f_equal. destruct dev; unfold with_mutex; simpl. f_equal. lia.
Qed.

Lemma relayboard_write_nomem file infos user_buffer copy_ok slack s :
  user_buffer ≠ [] →
  files s !! file = Some infos →
  relayboard_write file user_buffer false copy_ok slack s = Some (- ENOMEM, s).
Proof.
  intros Hne Hfile. unfold relayboard_write, bind, private_data. rewrite Hfile.
  by rewrite decide_False by by apply count_nonzero.
Qed.

Lemma relayboard_write_fault file infos user_buffer slack s :
  user_buffer ≠ [] →
  files s !! file = Some infos →
  relayboard_write file user_buffer true false slack s = Some (- EFAULT, s).
Proof.
  intros Hne Hfile. unfold relayboard_write, bind, private_data. rewrite Hfile.
  by rewrite decide_False by by apply count_nonzero.
Qed.

(** A write of zero bytes faults, whatever the state. *)
Lemma relayboard_write_empty file ok1 ok2 slack s :
  relayboard_write file [] ok1 ok2 slack s = None.
Proof.
  unfold relayboard_write, bind, private_data. by destruct (files s !! file).
Qed.

Lemma relayboard_read_eq file infos dev count jiffies writable s :
  files s !! file = Some infos →
  heap s !! device infos = Some dev →
  0 < mutex dev →
  relayboard_read file count jiffies writable s =
    if decide (count < 4 ∨ time_passed (last_call infos) jiffies < RELAY_READ_FREQ_MAX)
    then Some ((0, []), s)
    else
      let state_str := snprintf_d_nl 5 (relay_states dev) in
      let n := strlen state_str - copy_to_user writable (strlen state_str) in
      Some ((n, take (Z.to_nat n) state_str),
            set_files (<[file := mk_additions (device infos) jiffies]> (files s)) s).
Proof.
  intros Hfile Hdev Hmutex. unfold relayboard_read.
  destruct (decide (count < 4)) as [Hc|Hc].
  { rewrite decide_True by auto. done. }
  unfold bind at 1. unfold private_data. rewrite Hfile.
  fold (time_passed (last_call infos) jiffies).
  destruct (decide (time_passed _ _ < _)) as [Ht|Ht].
  { rewrite decide_True by auto. done. }
  rewrite decide_False by tauto.
  unfold down, up, set_private_data, bind, deref, store, modify, ret. rewrite Hdev.
  rewrite decide_True by done. simpl.
  repeat (rewrite lookup_insert_eq; simpl). rewrite ?insert_insert_eq.
  destruct s as [h n f i m w0]; simpl in *. unfold set_files, set_heap; simpl. do 3 f_equal.
  apply insert_id. rewrite Hdev. f_equal. destruct dev; unfold with_mutex; simpl. f_equal. lia.
Qed.

Lemma relayboard_open_eq minor file kzalloc_ok s :
  relayboard_open minor file kzalloc_ok s =
    match minors s !! minor with
    | None => Some (- ENODEV, s)
    | Some intf =>
        match intfdata s !! intf with
        | None => Some (- ENODEV, s)
        | Some d =>
            match heap s !! d with
            | None => None
            | Some dev =>
                let s1 := set_heap (<[d := with_kref (kref dev + 1) dev]> (heap s)) s in
                if kzalloc_ok
                then Some (0, set_files (<[file := mk_additions d 0]> (files s)) s1)
                else Some (- ENOMEM, s1)
            end
        end
    end.
Proof.
  unfold relayboard_open, usb_find_interface, usb_get_intfdata, bind, gets.
  destruct (minors s !! minor) as [intf|]; [|done].
  destruct (intfdata s !! intf) as [d|]; [|done].
  unfold kref_get, bind, deref. destruct (heap s !! d) as [dev|]; [|done].
  by destruct kzalloc_ok.
Qed.

Lemma relayboard_close_eq file infos dev s :
  files s !! file = Some infos →
  heap s !! device infos = Some dev →
  relayboard_close file s =
    Some (0, set_files (delete file (files s))
               (set_heap (if decide (kref dev - 1 = 0)
                          then delete (device infos) (heap s)
                          else <[device infos := with_kref (kref dev - 1) dev]> (heap s)) s)).
Proof.
  intros Hfile Hdev.
  unfold relayboard_close, private_data, bind. rewrite Hfile.
  unfold kref_put, bind, deref. rewrite Hdev.
  by destruct (decide (kref dev - 1 = 0)).
Qed.

Lemma relayboard_disconnect_eq intf d dev s :
  intfdata s !! intf = Some d →
  heap s !! d = Some dev →
  mutex dev = 1 →
  relayboard_disconnect intf s =
    Some (tt, set_heap (if decide (kref dev - 1 = 0)
                        then delete d (heap s)
                        else <[d := with_kref (kref dev - 1) (with_interface None dev)]> (heap s))
                (set_minors (filter (λ kv, kv.2 ≠ intf) (minors s))
                   (set_intfdata (delete intf (intfdata s)) s))).
Proof.
  intros Hintf Hdev Hmutex.
  unfold relayboard_disconnect, usb_get_intfdata, bind, gets. rewrite Hintf.
  unfold down, up, usb_set_intfdata, usb_deregister_dev, kref_put, relayboard_free,
    bind, deref, store, modify. rewrite Hdev.
  rewrite decide_True by lia. simpl.
  repeat (rewrite lookup_insert_eq; simpl).
  destruct (decide (kref dev - 1 = 0)); simpl.
  - unfold set_heap, set_minors, set_intfdata; simpl. do 3 f_equal.
    rewrite !insert_insert_eq. by rewrite delete_insert_eq.
  - unfold set_heap, set_minors, set_intfdata; simpl. do 3 f_equal.
    rewrite !insert_insert_eq. f_equal.
    destruct dev; unfold with_kref, with_mutex, with_interface; simpl in *. f_equal. lia.
Qed.

Lemma bind_Some {A B} (c : M A) (k : A → M B) s a s' :
  c s = Some (a, s') → bind c k s = k a s'.
Proof. intros Hc. unfold bind. by rewrite Hc. Qed.

Lemma update_eq d dev (f : usb_relayboard → usb_relayboard) s :
  heap s !! d = Some dev →
  (do dev' <- deref d; store d (f dev')) s
  = Some (tt, set_heap (<[d := f dev]> (heap s)) s).
Proof. intros Hd. unfold bind, deref, store, modify. by rewrite Hd. Qed.

Lemma relayboard_probe_eq intf device kzalloc_ok registration s :
  heap s !! next_addr s = None →
  intfdata s !! intf = None →
  match registration with inl e => e ≠ 0 | inr _ => True end →
  relayboard_probe intf device kzalloc_ok registration s =
    if decide (bNumConfigurations device = 1 ∧ bMaxPower device = 48
               ∧ bNumInterfaces device = 1 ∧ bNumEndpoints device = 3) then
      if kzalloc_ok then
        match registration with
        | inl e => Some (e, set_next_addr (S (next_addr s)) s)
        | inr minor =>
            Some (0, set_minors (<[minor := intf]> (minors s))
                       (set_intfdata (<[intf := next_addr s]> (intfdata s))
                          (set_next_addr (S (next_addr s))
                             (set_heap (<[next_addr s :=
                                            mk_relayboard (usb_id device) (Some intf) 1 1 0]>
                                          (heap s)) s))))
        end
      else Some (- ENOMEM, s)
    else Some (- ENODEV, s).
Proof.
  intros Hfresh Hunbound Hreg. unfold relayboard_probe.
  destruct (decide _); [|done]. destruct kzalloc_ok; [|done].
  erewrite bind_Some by reflexivity.
  erewrite bind_Some by (eapply update_eq; apply lookup_insert_eq).
  erewrite bind_Some by (eapply update_eq; apply lookup_insert_eq).
  erewrite bind_Some
    by (eapply (update_eq _ _ (λ dev, mk_relayboard _ (interface dev) (kref dev) (mutex dev)
                                        (relay_states dev))); apply lookup_insert_eq).
  erewrite bind_Some by (eapply update_eq; apply lookup_insert_eq).
  erewrite bind_Some by reflexivity.
  cbn [heap set_heap set_intfdata set_next_addr].
  rewrite !insert_insert_eq.
  cbn [with_interface with_kref with_mutex udev interface kref mutex relay_states].
  destruct registration as [e|minor].
  - erewrite bind_Some by reflexivity. rewrite decide_True by done.
    erewrite bind_Some; [reflexivity|].
    erewrite bind_Some by reflexivity.
    unfold kref_put, relayboard_free, bind, deref, modify.
    cbn [heap set_heap set_intfdata set_next_addr intfdata next_addr files minors wire].
    rewrite lookup_insert_eq. cbn [kref]. rewrite decide_True by done.
    cbn [heap set_heap set_intfdata set_next_addr intfdata next_addr files minors wire].
    rewrite !delete_insert_eq, !delete_id by done. by destruct s.
  - erewrite bind_Some by reflexivity. rewrite decide_False by (intros H; by apply H).
    erewrite bind_Some by reflexivity. done.
Qed.

(** * Counting the open files of a device *)

Lemma filter_size_insert d file infos (f : gmap nat file_additions) :
  Z.of_nat (size (filter (λ kv, device kv.2 = d) (<[file := infos]> f)))
  = Z.of_nat (size (filter (λ kv, device kv.2 = d) f))
    + weight d (Some infos) - weight d (f !! file).
Proof.
  rewrite map_filter_insert. simpl.
  destruct (decide (device infos = d)) as [Hd|Hd].
  - rewrite map_size_insert, map_lookup_filter.
    destruct (f !! file) as [old|]; simpl.
    + destruct (decide (device old = d)).
      * rewrite option_guard_True by done. simpl. lia.
      * rewrite option_guard_False by done. simpl. lia.
    + lia.
  - rewrite map_filter_delete, map_size_delete, map_lookup_filter.
    destruct (f !! file) as [old|] eqn:Hold; simpl.
    + destruct (decide (device old = d)).
      * rewrite option_guard_True by done. simpl.
        assert (size (filter (λ kv : nat * file_additions, device kv.2 = d) f) ≠ 0%nat).
        { apply map_size_ne_0_lookup. exists file, old.
          apply map_lookup_filter_Some. done. }
        lia.
      * rewrite option_guard_False by done. simpl. lia.
    + lia.
Qed.

Lemma handles_insert d file infos s :
  handles d (set_files (<[file := infos]> (files s)) s)
  = handles d s + weight d (Some infos) - weight d (files s !! file).
Proof. apply filter_size_insert. Qed.

Lemma handles_delete d file s :
  handles d (set_files (delete file (files s)) s)
  = handles d s - weight d (files s !! file).
Proof.
  unfold handles. simpl.
  rewrite map_filter_delete, map_size_delete, map_lookup_filter.
  destruct (files s !! file) as [old|] eqn:Hold; simpl.
  - destruct (decide (device old = d)).
    + rewrite option_guard_True by done. simpl.
      assert (size (filter (λ kv : nat * file_additions, device kv.2 = d) (files s)) ≠ 0%nat).
      { apply map_size_ne_0_lookup. exists file, old.
        apply map_lookup_filter_Some. done. }
      lia.
    + rewrite option_guard_False by done. simpl. lia.
  - lia.
Qed.

Lemma handles_nonneg d s : 0 ≤ handles d s.
Proof. unfold handles. lia. Qed.

Lemma handles_pos file infos s :
  files s !! file = Some infos → 1 ≤ handles (device infos) s.
Proof.
  intros Hfile. unfold handles.
  assert (size (filter (λ kv : nat * file_additions, device kv.2 = device infos) (files s))
          ≠ 0%nat); [|lia].
  apply map_size_ne_0_lookup. exists file, infos. by apply map_lookup_filter_Some.
Qed.

Lemma handles_fresh d s : consistent s → heap s !! d = None → handles d s = 0.
Proof.
  intros Hs Hfresh. pose proof (handles_nonneg d s).
  destruct (decide (handles d s = 0)) as [|Hne]; [done|].
  unfold handles in Hne.
  assert (size (filter (λ kv : nat * file_additions, device kv.2 = d) (files s)) ≠ 0%nat)
    as Hsz by lia.
  apply map_size_ne_0_lookup in Hsz as (file & infos & Hf).
  apply map_lookup_filter_Some in Hf as [Hf Hdev]. simpl in Hdev.
  apply (files_live _ Hs) in Hf. rewrite Hdev, Hfresh in Hf. by destruct Hf.
Qed.


(** * Consistency is kept by every call *)

Lemma consistent_boot : consistent boot.
Proof. split; simpl; intros *; rewrite ?lookup_empty; try done. Qed.

Lemma consistent_set_wire w s : consistent s → consistent (set_wire w s).
Proof. intros [? ? ? ? ? ? ?]. by split. Qed.

Lemma consistent_store d dev dev' s :
  consistent s →
  heap s !! d = Some dev →
  interface dev' = interface dev →
  mutex dev' = 1 →
  0 ≤ relay_states dev' < 256 →
  1 ≤ kref dev' →
  registration dev + handles d s ≤ kref dev' →
  consistent (set_heap (<[d := dev']> (heap s)) s).
Proof.
  intros [Hlive Hcount Hunl Hbyte Hbelow Hintf Hiface] Hd Hi Hm Hr Hk Hcnt.
  split; simpl.
  - intros file infos Hfile. rewrite lookup_insert_is_Some. destruct (decide (d = device infos)); eauto.
  - intros d0 dev0. rewrite lookup_insert_Some. intros [[<- <-]|[? Hd0]].
    + unfold registration in *. rewrite Hi. split; [done|]. exact Hcnt.
    + by apply Hcount.
  - intros d0 dev0. rewrite lookup_insert_Some. intros [[<- <-]|[? Hd0]]; eauto.
  - intros d0 dev0. rewrite lookup_insert_Some. intros [[<- <-]|[? Hd0]]; eauto.
  - intros d0. rewrite lookup_insert_is_Some. intros [<-|[? Hd0]]; eauto.
  - intros intf d0 Hd0. destruct (Hintf _ _ Hd0) as (dev0 & Hdev0 & Hi0).
    destruct (decide (d = d0)) as [<-|Hne].
    + exists dev'. rewrite lookup_insert_eq. split; [done|]. congruence.
    + exists dev0. by rewrite lookup_insert_ne.
  - intros d0 dev0 intf. rewrite lookup_insert_Some. intros [[<- <-]|[? Hd0]] Hi0.
    + apply (Hiface _ dev); congruence.
    + by apply (Hiface _ dev0).
Qed.

Lemma consistent_touch file infos jiffies s :
  consistent s →
  files s !! file = Some infos →
  consistent (set_files (<[file := mk_additions (device infos) jiffies]> (files s)) s).
Proof.
  intros [Hlive Hcount Hunl Hbyte Hbelow Hintf Hiface] Hfile.
  split; simpl; try done.
  - intros file0 infos0. rewrite lookup_insert_Some. intros [[<- <-]|[? Hf0]]; simpl; eauto.
  - intros d dev Hd. rewrite handles_insert, Hfile. simpl.
    destruct (Hcount _ _ Hd). split; [done|]. lia.
Qed.

Lemma consistent_set_minors m s : consistent s → consistent (set_minors m s).
Proof. intros [? ? ? ? ? ? ?]. by split. Qed.

Lemma consistent_set_next_addr n s :
  consistent s → (next_addr s ≤ n)%nat → consistent (set_next_addr n s).
Proof.
  intros [Hlive Hcount Hunl Hbyte Hbelow Hintf Hiface] Hn. split; simpl; try done.
  intros d Hd. specialize (Hbelow d Hd). lia.
Qed.

Lemma consistent_add_file file d dev s :
  consistent s →
  files s !! file = None →
  heap s !! d = Some dev →
  registration dev + handles d s + 1 ≤ kref dev →
  consistent (set_files (<[file := mk_additions d 0]> (files s)) s).
Proof.
  intros [Hlive Hcount Hunl Hbyte Hbelow Hintf Hiface] Hfile Hd Hcnt.
  split; simpl; try done.
  - intros file0 infos0. rewrite lookup_insert_Some. intros [[<- <-]|[? Hf0]]; simpl; eauto.
  - intros d0 dev0 Hd0. rewrite handles_insert, Hfile. simpl.
    destruct (Hcount _ _ Hd0). split; [done|].
    destruct (decide (d = d0)) as [<-|?]; [|lia].
    assert (dev0 = dev) as -> by congruence. lia.
Qed.

Lemma consistent_remove_file file s :
  consistent s → consistent (set_files (delete file (files s)) s).
Proof.
  intros [Hlive Hcount Hunl Hbyte Hbelow Hintf Hiface].
  split; simpl; try done.
  - intros file0 infos0. rewrite lookup_delete_Some. intros [? Hf0]. eauto.
  - intros d dev Hd. rewrite handles_delete.
    destruct (Hcount _ _ Hd). split; [done|].
    assert (0 ≤ weight d (files s !! file)); [|lia].
    unfold weight. destruct (files s !! file); [|done]. by destruct (decide _).
Qed.

Lemma registration_nonneg dev : 0 ≤ registration dev.
Proof. unfold registration. by destruct (interface dev). Qed.

Lemma consistent_kref_put d dev s :
  consistent s →
  heap s !! d = Some dev →
  registration dev + handles d s ≤ kref dev - 1 →
  consistent (set_heap (if decide (kref dev - 1 = 0)
                        then delete d (heap s)
                        else <[d := with_kref (kref dev - 1) dev]> (heap s)) s).
Proof.
  intros Hs Hd Hcnt. destruct (decide (kref dev - 1 = 0)) as [Hz|Hnz].
  - pose proof (registration_nonneg dev) as Hreg.
    pose proof (handles_nonneg d s) as Hh.
    destruct Hs as [Hlive Hcount Hunl Hbyte Hbelow Hintf Hiface].
    split; simpl.
    + intros file infos Hfile. rewrite lookup_delete_is_Some. split; [|eauto].
      intros Heq. pose proof (handles_pos _ _ _ Hfile) as Hp. rewrite <- Heq in Hp. lia.
    + intros d0 dev0. rewrite lookup_delete_Some. intros [? Hd0]. eauto.
    + intros d0 dev0. rewrite lookup_delete_Some. intros [? Hd0]. eauto.
    + intros d0 dev0. rewrite lookup_delete_Some. intros [? Hd0]. eauto.
    + intros d0. rewrite lookup_delete_is_Some. intros [? Hd0]. eauto.
    + intros intf d0 Hd0. destruct (Hintf _ _ Hd0) as (dev0 & Hdev0 & Hi0).
      exists dev0. split; [|done]. rewrite lookup_delete_ne; [done|].
      intros <-. assert (dev0 = dev) as -> by congruence.
      unfold registration in Hreg, Hcnt. rewrite Hi0 in Hcnt. lia.
    + intros d0 dev0 intf. rewrite lookup_delete_Some. intros [? Hd0]. eauto.
  - destruct (heap_counted _ Hs _ _ Hd) as [Hk _].
    apply (consistent_store d dev); simpl; try done; try lia.
    + by apply (heap_unlocked _ Hs d).
    + by apply (heap_byte _ Hs d).
Qed.

Lemma consistent_unbind intf d dev s :
  consistent s →
  intfdata s !! intf = Some d →
  heap s !! d = Some dev →
  consistent (set_intfdata (delete intf (intfdata s))
                (set_heap (<[d := with_interface None dev]> (heap s)) s)).
Proof.
  intros [Hlive Hcount Hunl Hbyte Hbelow Hintf Hiface] Hi Hd.
  split; simpl.
  - intros file infos Hfile. rewrite lookup_insert_is_Some.
    destruct (decide (d = device infos)); eauto.
  - intros d0 dev0. rewrite lookup_insert_Some. intros [[<- <-]|[? Hd0]].
    + destruct (Hcount _ _ Hd) as [? Hc]. split; [done|].
      pose proof (registration_nonneg dev). unfold registration in *. simpl.
      change (handles d (set_intfdata _ (set_heap _ s))) with (handles d s). lia.
    + by apply Hcount.
  - intros d0 dev0. rewrite lookup_insert_Some. intros [[<- <-]|[? Hd0]]; simpl; eauto.
  - intros d0 dev0. rewrite lookup_insert_Some. intros [[<- <-]|[? Hd0]]; simpl; eauto.
  - intros d0. rewrite lookup_insert_is_Some. intros [<-|[? Hd0]]; eauto.
  - intros intf0 d0. rewrite lookup_delete_Some. intros [Hne Hd0].
    destruct (Hintf _ _ Hd0) as (dev0 & Hdev0 & Hi0).
    exists dev0. split; [|done]. rewrite lookup_insert_ne; [done|].
    intros <-. assert (dev0 = dev) as -> by congruence.
    destruct (Hintf _ _ Hi) as (dev1 & Hdev1 & Hi1). congruence.
  - intros d0 dev0 intf0. rewrite lookup_insert_Some. intros [[<- <-]|[? Hd0]] Hi0; [done|].
    rewrite lookup_delete_ne; [by apply (Hiface _ dev0)|].
    intros <-. pose proof (Hiface _ _ _ Hd0 Hi0). congruence.
Qed.

Lemma consistent_bind intf (board : usb_device) minor s :
  consistent s →
  intfdata s !! intf = None →
  consistent (set_minors (<[minor := intf]> (minors s))
                (set_intfdata (<[intf := next_addr s]> (intfdata s))
                   (set_next_addr (S (next_addr s))
                      (set_heap (<[next_addr s := mk_relayboard (usb_id board) (Some intf) 1 1 0]>
                                   (heap s)) s)))).
Proof.
  intros Hs Hi.
  assert (heap s !! next_addr s = None) as Hfresh.
  { apply eq_None_not_Some. intros H. apply (heap_below _ Hs) in H. lia. }
  pose proof (handles_fresh _ _ Hs Hfresh) as Hnone.
  destruct Hs as [Hlive Hcount Hunl Hbyte Hbelow Hintf Hiface].
  split; simpl.
  - intros file infos Hfile. rewrite lookup_insert_is_Some.
    destruct (decide (next_addr s = device infos)); eauto.
  - intros d0 dev0. rewrite lookup_insert_Some. intros [[<- <-]|[? Hd0]].
    + simpl. unfold registration. simpl. unfold handles in *. simpl. lia.
    + by apply Hcount.
  - intros d0 dev0. rewrite lookup_insert_Some. intros [[<- <-]|[? Hd0]]; simpl; eauto.
  - intros d0 dev0. rewrite lookup_insert_Some. intros [[<- <-]|[? Hd0]]; simpl; eauto. lia.
  - intros d0. rewrite lookup_insert_is_Some. intros [<-|[? Hd0]]; [lia|].
    specialize (Hbelow _ Hd0). lia.
  - intros intf0 d0. rewrite lookup_insert_Some. intros [[<- <-]|[? Hd0]].
    + eexists. rewrite lookup_insert_eq. done.
    + destruct (Hintf _ _ Hd0) as (dev0 & Hdev0 & Hi0). exists dev0. split; [|done].
      rewrite lookup_insert_ne; [done|]. intros <-. congruence.
  - intros d0 dev0 intf0. rewrite lookup_insert_Some. intros [[<- <-]|[? Hd0]] Hi0.
    + simpl in Hi0. injection Hi0 as <-. apply lookup_insert_eq.
    + pose proof (Hiface _ _ _ Hd0 Hi0) as Hb. rewrite lookup_insert_ne; [done|].
      intros <-. congruence.
Qed.

Lemma relayboard_disconnect_unbound intf s :
  intfdata s !! intf = None → relayboard_disconnect intf s = None.
Proof. intros Hi. unfold relayboard_disconnect, usb_get_intfdata, bind, gets. by rewrite Hi. Qed.

Lemma private_data_closed {A} file (k : file_additions → M A) s :
  files s !! file = None → (do infos <- private_data file; k infos) s = None.
Proof. intros Hf. unfold bind, private_data. by rewrite Hf. Qed.

Lemma write_mask_byte user_buffer slack : 0 ≤ write_mask user_buffer slack < 256.
Proof. unfold write_mask. apply Z.mod_pos_bound. lia. Qed.

Lemma step_consistent c s r s' :
  consistent s → step c s = Some (r, s') → consistent s'.
Proof.
  intros Hs Hstep. unfold step in Hstep.
  destruct (decide (kernel_contract c s)) as [Hk|]; [|done].
  destruct c as [intf board ok registration|intf|minor file ok|file
                |file user_buffer ok1 ok2 slack|file count jiffies writable]; simpl in Hk.
  - (* probe *)
    destruct Hk as [Hi Hreg]. unfold bind, ret in Hstep.
    rewrite relayboard_probe_eq in Hstep; first last.
    { by destruct registration. }
    { done. }
    { apply eq_None_not_Some. intros H. apply (heap_below _ Hs) in H. lia. }
    destruct (decide _); [|by simplify_eq].
    destruct ok; [|by simplify_eq].
    destruct registration as [e|minor]; simplify_eq.
    + apply consistent_set_next_addr; [done|simpl; lia].
    + by apply consistent_bind.
  - (* disconnect *)
    unfold bind, ret in Hstep.
    destruct (intfdata s !! intf) as [d|] eqn:Hi;
      [|by rewrite relayboard_disconnect_unbound in Hstep].
    destruct (intfdata_bound _ Hs _ _ Hi) as (dev & Hd & Hiface).
    rewrite (relayboard_disconnect_eq intf d dev) in Hstep
      by eauto using heap_unlocked.
    simplify_eq.
    pose proof (consistent_set_minors (filter (λ kv, kv.2 ≠ intf) (minors s)) _
                  (consistent_unbind _ _ _ _ Hs Hi Hd)) as Hs2.
    apply (consistent_kref_put d (with_interface None dev)) in Hs2; first last.
    { destruct (heap_counted _ Hs _ _ Hd) as [_ Hc].
      unfold registration in *. rewrite Hiface in Hc. simpl.
      change (handles d (set_minors _ _)) with (handles d s). lia. }
    { simpl. apply lookup_insert_eq. }
    simpl in Hs2. rewrite delete_insert_eq, insert_insert_eq in Hs2. exact Hs2.
  - (* open *)
    unfold bind, ret in Hstep. rewrite relayboard_open_eq in Hstep.
    destruct (minors s !! minor) as [intf|]; [|by simplify_eq].
    destruct (intfdata s !! intf) as [d|] eqn:Hi; [|by simplify_eq].
    destruct (heap s !! d) as [dev|] eqn:Hd; [|done].
    destruct (heap_counted _ Hs _ _ Hd) as [Hk1 Hc].
    assert (consistent (set_heap (<[d := with_kref (kref dev + 1) dev]> (heap s)) s)) as Hs1.
    { apply (consistent_store d dev); simpl; try done; try lia.
      - by apply (heap_unlocked _ Hs d).
      - by apply (heap_byte _ Hs d). }
    cbv zeta in Hstep. destruct ok; simplify_eq; [|done].
    apply (consistent_add_file file d (with_kref (kref dev + 1) dev)
             (set_heap (<[d := with_kref (kref dev + 1) dev]> (heap s)) s)); try done.
    + simpl. apply lookup_insert_eq.
    + simpl. unfold registration in *. simpl.
      change (handles d (set_heap _ s)) with (handles d s). lia.
  - (* close *)
    unfold bind, ret in Hstep.
    destruct (files s !! file) as [infos|] eqn:Hf; first last.
    { unfold relayboard_close in Hstep. by rewrite private_data_closed in Hstep. }
    destruct (files_live _ Hs _ _ Hf) as [dev Hd].
    rewrite (relayboard_close_eq file infos dev) in Hstep by done. simplify_eq.
    assert (registration dev + handles (device infos) (set_files (delete file (files s)) s)
            ≤ kref dev - 1) as Hcnt.
    { rewrite handles_delete, Hf. simpl. rewrite decide_True by done.
      destruct (heap_counted _ Hs _ _ Hd). lia. }
    exact (consistent_kref_put (device infos) dev (set_files (delete file (files s)) s)
             (consistent_remove_file file s Hs) Hd Hcnt).
  - (* write *)
    unfold bind, ret in Hstep.
    destruct (files s !! file) as [infos|] eqn:Hf; first last.
    { unfold relayboard_write in Hstep. by rewrite private_data_closed in Hstep. }
    destruct (files_live _ Hs _ _ Hf) as [dev Hd].
    destruct (decide (user_buffer = [])) as [->|Hne];
      [by rewrite relayboard_write_empty in Hstep|].
    destruct ok1; [|rewrite (relayboard_write_nomem _ infos) in Hstep by done; by simplify_eq].
    destruct ok2; [|rewrite (relayboard_write_fault _ infos) in Hstep by done; by simplify_eq].
    rewrite (relayboard_write_eq file infos dev) in Hstep; [|done..|]; first last.
    { rewrite (heap_unlocked _ Hs _ _ Hd). lia. }
    destruct (transmit _ _ _) as [[] w]; simplify_eq.
    + destruct (heap_counted _ Hs _ _ Hd).
      apply (consistent_store (device infos) dev _ (set_wire w s)); simpl; try done.
      * by apply consistent_set_wire.
      * by apply (heap_unlocked _ Hs (device infos)).
      * apply write_mask_byte.
    + by apply consistent_set_wire.
  - (* read *)
    destruct (files s !! file) as [infos|] eqn:Hf; first last.
    { unfold relayboard_read in Hstep. destruct (decide (count < 4)).
      - unfold ret in Hstep. by simplify_eq.
      - by rewrite private_data_closed in Hstep. }
    destruct (files_live _ Hs _ _ Hf) as [dev Hd].
    rewrite (relayboard_read_eq file infos dev) in Hstep; [|done..|]; first last.
    { rewrite (heap_unlocked _ Hs _ _ Hd). lia. }
    cbv zeta in Hstep. destruct (decide _); simplify_eq; [done|].
    by apply consistent_touch.
Qed.

Lemma reachable_consistent s : reachable s → consistent s.
Proof.
  induction 1 as [|c s r s' _ IH Hstep]; [apply consistent_boot|].
  by apply (step_consistent c s r s').
Qed.

(** * What one commit puts on the wire *)

(** C1: for every target mask (in particular every mask from 0 to 255) one
    commit emits the frames of one fixed sequence, which is a function of the
    mask alone: [encode 0x00]; then for each bit from the one of value 128
    down to the one of value 1 the triple [encode 0x20], [encode 0x28],
    [encode 0x20] when the bit is set and [encode 0x00], [encode 0x08],
    [encode 0x00] when it is not; then [encode 0x00], [encode 0x01].  The
    sequence has 27 frames of 11 bytes; what a commit puts on the wire is
    always a beginning of it, and all of it when every send is acknowledged. *)
Theorem commit_emits_27_frames d dev targetMask s :
  heap s !! d = Some dev →
  let frames := commit_frames targetMask in
  frames = encode <$> ([0x00]
                       ++ concat ((λ value, if Z.testbit targetMask (Z.log2 value)
                                            then [0x20; 0x28; 0x20]
                                            else [0x00; 0x08; 0x00])
                                  <$> [128; 64; 32; 16; 8; 4; 2; 1])
                       ++ [0x00; 0x01])
  ∧ length frames = 27%nat
  ∧ Forall (λ f, length f = 11%nat) frames
  ∧ (∃ r s' n,
       relayboard_send_status d targetMask s = Some (r, s')
       ∧ (1 ≤ n ≤ 27)%nat
       ∧ wire s' = wire s ++ (pair (udev dev) <$> take n frames))
  ∧ ((∀ k, (1 ≤ k ≤ 27)%nat → frame_acked (udev dev) frames (wire s) k = true) →
     ∃ s', relayboard_send_status d targetMask s = Some (0, s')
           ∧ wire s' = wire s ++ (pair (udev dev) <$> frames)).
Proof.
  intros Hd frames. split_and!.
  - done.
  - apply commit_frames_length.
  - unfold frames, commit_frames. rewrite Forall_fmap. apply Forall_true. intros p. reflexivity.
  - rewrite (relayboard_send_status_eq d dev) by done. fold frames.
    destruct (transmit_prefix (udev dev) frames (wire s)) as (n & Hn & Hw & _ & Hpos).
    unfold frames in Hn at 1. rewrite commit_frames_length in Hn.
    assert (1 ≤ n)%nat as Hn1.
    { apply Hpos. intros Hnil. pose proof (commit_frames_length targetMask) as Hl.
      fold frames in Hl. rewrite Hnil in Hl. done. }
    destruct (transmit _ _ _) as [[] w]; simpl in Hw; subst w;
      eexists _, _, n; split_and!; done.
  - intros Hall. rewrite (relayboard_send_status_eq d dev) by done. fold frames.
    rewrite transmit_acked.
    + eexists. split; done.
    + intros k Hk. apply Hall. unfold frames in Hk. rewrite commit_frames_length in Hk. done.
Qed.

(** [relayboard_read] looks at the files and the heap only. *)
Lemma relayboard_read_ext file count jiffies writable s1 s2 :
  files s1 !! file = files s2 !! file →
  heap s1 = heap s2 →
  fst <$> relayboard_read file count jiffies writable s1
  = fst <$> relayboard_read file count jiffies writable s2.
Proof.
  intros Hf Hh. unfold relayboard_read.
  destruct (decide (count < 4)); [done|].
  unfold bind, private_data. rewrite Hf.
  destruct (files s2 !! file) as [infos|]; [|done].
  destruct (decide _); [done|].
  unfold down, up, set_private_data, bind, deref, store, modify, ret. rewrite Hh.
  destruct (heap s2 !! device infos) as [dev|]; [|done]. simpl.
  destruct (decide (0 < mutex dev)); [|done]. simpl.
  repeat (rewrite lookup_insert_eq; simpl). done.
Qed.

(** C2: when frame number [k] of a commit is the first whose send fails or
    is acknowledged with another length than 11, the commit has submitted
    the first [k] frames and no further one, returns the failure code, and
    leaves the store as it was but for the wire; so [relay_states] keeps its
    value and every later read gives what it would have given before. *)
Theorem failed_commit_keeps_shadow_state d dev targetMask s k :
  heap s !! d = Some dev →
  (1 ≤ k ≤ 27)%nat →
  (∀ j, (1 ≤ j < k)%nat → frame_acked (udev dev) (commit_frames targetMask) (wire s) j = true) →
  frame_acked (udev dev) (commit_frames targetMask) (wire s) k = false →
  ∃ s',
    relayboard_send_status d targetMask s = Some (- EFAULT, s')
    ∧ wire s' = wire s ++ (pair (udev dev) <$> take k (commit_frames targetMask))
    ∧ heap s' = heap s
    ∧ heap s' !! d = Some dev
    ∧ files s' = files s
    ∧ ∀ file count jiffies writable,
        fst <$> relayboard_read file count jiffies writable s'
        = fst <$> relayboard_read file count jiffies writable s.
Proof.
  intros Hd Hk Hbefore Hfail.
  rewrite (relayboard_send_status_eq d dev) by done.
  rewrite (transmit_failed _ _ _ k); try done.
  - eexists. split; [done|]. simpl. split_and!; try done.
    intros. by apply relayboard_read_ext.
  - by rewrite commit_frames_length.
Qed.

(** * The shadow state between commits *)

Lemma step_keeps_mask d m c s r s' :
  consistent s →
  (d < next_addr s)%nat →
  (∀ dev, heap s !! d = Some dev → relay_states dev = m) →
  step c s = Some (r, s') →
  (writes_to d c s → r.1 < 0) →
  (d < next_addr s')%nat ∧ ∀ dev, heap s' !! d = Some dev → relay_states dev = m.
Proof.
  intros Hs Hbelow Hmask Hstep Hquiet. unfold step in Hstep.
  destruct (decide (kernel_contract c s)) as [Hk|]; [|done].
  destruct c as [intf board ok registration|intf|minor file ok|file
                |file user_buffer ok1 ok2 slack|file count jiffies writable]; simpl in Hk.
  - destruct Hk as [Hi Hreg]. unfold bind, ret in Hstep.
    rewrite relayboard_probe_eq in Hstep; first last.
    { by destruct registration. }
    { done. }
    { apply eq_None_not_Some. intros H. apply (heap_below _ Hs) in H. lia. }
    destruct (decide _); [|by simplify_eq].
    destruct ok; [|by simplify_eq].
    destruct registration as [e|minor]; simplify_eq; simpl.
    + split; [lia|done].
    + split; [lia|]. intros dev. rewrite lookup_insert_ne by lia. apply Hmask.
  - unfold bind, ret in Hstep.
    destruct (intfdata s !! intf) as [d0|] eqn:Hi;
      [|by rewrite relayboard_disconnect_unbound in Hstep].
    destruct (intfdata_bound _ Hs _ _ Hi) as (dev0 & Hd0 & Hiface).
    rewrite (relayboard_disconnect_eq intf d0 dev0) in Hstep
      by eauto using heap_unlocked.
    simplify_eq. simpl. split; [done|]. intros dev.
    destruct (decide (kref dev0 - 1 = 0)).
    + rewrite lookup_delete_Some. intros [_ ?]. eauto.
    + rewrite lookup_insert_Some. intros [[<- <-]|[_ ?]]; simpl; eauto.
  - unfold bind, ret in Hstep. rewrite relayboard_open_eq in Hstep.
    destruct (minors s !! minor) as [intf|]; [|by simplify_eq].
    destruct (intfdata s !! intf) as [d0|] eqn:Hi; [|by simplify_eq].
    destruct (heap s !! d0) as [dev0|] eqn:Hd0; [|done].
    cbv zeta in Hstep.
    destruct ok; simplify_eq; simpl; (split; [done|]); intros dev;
      rewrite lookup_insert_Some; intros [[<- <-]|[_ ?]]; simpl; eauto.
  - unfold bind, ret in Hstep.
    destruct (files s !! file) as [infos|] eqn:Hf; first last.
    { unfold relayboard_close in Hstep. by rewrite private_data_closed in Hstep. }
    destruct (files_live _ Hs _ _ Hf) as [dev0 Hd0].
    rewrite (relayboard_close_eq file infos dev0) in Hstep by done. simplify_eq.
    simpl. split; [done|]. intros dev.
    destruct (decide (kref dev0 - 1 = 0)).
    + rewrite lookup_delete_Some. intros [_ ?]. eauto.
    + rewrite lookup_insert_Some. intros [[<- <-]|[_ ?]]; simpl; eauto.
  - unfold bind, ret in Hstep. simpl in Hquiet.
    destruct (files s !! file) as [infos|] eqn:Hf; first last.
    { unfold relayboard_write in Hstep. by rewrite private_data_closed in Hstep. }
    destruct (files_live _ Hs _ _ Hf) as [dev0 Hd0].
    destruct (decide (user_buffer = [])) as [->|Hne];
      [by rewrite relayboard_write_empty in Hstep|].
    destruct ok1; [|rewrite (relayboard_write_nomem _ infos) in Hstep by done; by simplify_eq].
    destruct ok2; [|rewrite (relayboard_write_fault _ infos) in Hstep by done; by simplify_eq].
    rewrite (relayboard_write_eq file infos dev0) in Hstep; [|done..|]; first last.
    { rewrite (heap_unlocked _ Hs _ _ Hd0). lia. }
    destruct (transmit _ _ _) as [[] w]; simplify_eq; simpl in *.
    + split; [done|]. intros dev. rewrite lookup_insert_Some. intros [[<- <-]|[_ ?]]; [|eauto].
      specialize (Hquiet eq_refl). lia.
    + done.
  - destruct (files s !! file) as [infos|] eqn:Hf; first last.
    { unfold relayboard_read in Hstep. destruct (decide (count < 4)).
      - unfold ret in Hstep. by simplify_eq.
      - by rewrite private_data_closed in Hstep. }
    destruct (files_live _ Hs _ _ Hf) as [dev0 Hd0].
    rewrite (relayboard_read_eq file infos dev0) in Hstep; [|done..|]; first last.
    { rewrite (heap_unlocked _ Hs _ _ Hd0). lia. }
    cbv zeta in Hstep. destruct (decide _); simplify_eq; done.
Qed.

Lemma no_commit_keeps_mask d m s s' :
  consistent s →
  (d < next_addr s)%nat →
  (∀ dev, heap s !! d = Some dev → relay_states dev = m) →
  no_commit d s s' →
  consistent s' ∧ ∀ dev, heap s' !! d = Some dev → relay_states dev = m.
Proof.
  intros Hs Hbelow Hmask Hrun. induction Hrun as [s|c s r s' s'' Hstep Hquiet _ IH]; [done|].
  destruct (step_keeps_mask d m c s r s') as [? ?]; try done.
  apply IH; try done. by apply (step_consistent c s r s').
Qed.

(** C3: after a write through some file has committed mask [m] on a device,
    and as long as no later write to that device succeeds, the device holds
    [m], and a read through any file open on that device (the same or
    another one) that delivers data delivers the text of [m]. *)
Theorem mask_read_back_until_next_commit
    s0 file infos user_buffer ok1 ok2 slack r s1 s2 file' infos' :
  reachable s0 →
  files s0 !! file = Some infos →
  step (Write file user_buffer ok1 ok2 slack) s0 = Some (r, s1) →
  0 ≤ r.1 →
  no_commit (device infos) s1 s2 →
  files s2 !! file' = Some infos' →
  device infos' = device infos →
  let m := write_mask user_buffer slack in
  ∃ dev,
    heap s2 !! device infos = Some dev
    ∧ relay_states dev = m
    ∧ ∀ count jiffies writable,
        ∃ n s3,
          step (Read file' count jiffies writable) s2
          = Some ((n, take (Z.to_nat n) (snprintf_d_nl 5 m)), s3)
          ∧ (4 ≤ count →
             RELAY_READ_FREQ_MAX ≤ time_passed (last_call infos') jiffies →
             4 ≤ writable →
             n = strlen (snprintf_d_nl 5 m) ∧ 0 < n).
Proof.
  intros Hreach Hf Hstep Hr Hrun Hf' Hsame m.
  pose proof (reachable_consistent _ Hreach) as Hs0.
  pose proof (step_consistent _ _ _ _ Hs0 Hstep) as Hs1.
  assert (∃ dev1, heap s1 !! device infos = Some dev1 ∧ relay_states dev1 = m)
    as (dev1 & Hd1 & Hm1).
  { unfold step in Hstep. rewrite decide_True in Hstep by done.
    unfold bind, ret in Hstep.
    destruct (files_live _ Hs0 _ _ Hf) as [dev0 Hd0].
    destruct (decide (user_buffer = [])) as [->|Hne];
      [by rewrite relayboard_write_empty in Hstep|].
    destruct ok1; [|rewrite (relayboard_write_nomem _ infos) in Hstep by done;
                    simplify_eq; simpl in Hr; unfold ENOMEM in Hr; lia].
    destruct ok2; [|rewrite (relayboard_write_fault _ infos) in Hstep by done;
                    simplify_eq; simpl in Hr; unfold EFAULT in Hr; lia].
    rewrite (relayboard_write_eq file infos dev0) in Hstep; [|done..|]; first last.
    { rewrite (heap_unlocked _ Hs0 _ _ Hd0). lia. }
    destruct (transmit _ _ _) as [[] w]; simplify_eq; simpl in *;
      try (unfold EFAULT in Hr; lia).
    eexists. rewrite lookup_insert_eq. done. }
  destruct (no_commit_keeps_mask (device infos) m s1 s2) as [Hs2 Hm2]; try done.
  { apply (heap_below _ Hs1). eauto. }
  { intros dev ?. congruence. }
  destruct (files_live _ Hs2 _ _ Hf') as [dev Hd]. rewrite Hsame in Hd.
  exists dev. split_and!; [done|by apply Hm2|].
  intros count jiffies writable. unfold step. rewrite decide_True by done.
  rewrite (relayboard_read_eq file' infos' dev); [|by rewrite ?Hsame..|]; first last.
  { rewrite (heap_unlocked _ Hs2 _ _ Hd). lia. }
  rewrite (Hm2 _ Hd). fold m.
  assert (0 < strlen (snprintf_d_nl 5 m)) as Hlen.
  { unfold snprintf_d_nl, strlen. change (Z.to_nat (5 - 1)) with 4%nat.
    generalize (if decide (m < 0) then 45 :: put_dec 10 (- m) [] else put_dec 10 m []).
    intros digits. rewrite length_take, length_app. cbn [length]. lia. }
  destruct (decide _) as [Hno|Hyes]; cbv zeta.
  - eexists 0, _. split; [done|]. intros. lia.
  - eexists _, _. split; [done|]. intros _ _ Hw. unfold copy_to_user.
    assert (strlen (snprintf_d_nl 5 m) ≤ 4); [|lia].
    unfold snprintf_d_nl, strlen. rewrite length_take.
    change (Z.to_nat (5 - 1)) with 4%nat. lia.
Qed.

(** * The text interface: parsing a write, printing a read *)

Lemma isdigit_true c : isdigit c = true ↔ 48 ≤ c ≤ 57.
Proof. unfold isdigit. rewrite andb_true_iff, !Z.leb_le. done. Qed.

Lemma decimal_from_mod acc acc' digits :
  acc mod 256 = acc' mod 256 →
  decimal_from acc digits mod 256 = decimal_from acc' digits mod 256.
Proof.
  revert acc acc'. induction digits as [|c digits IH]; intros acc acc' Hacc; [done|].
  simpl. apply IH.
  rewrite (Z.add_mod (acc * 10)), (Z.add_mod (acc' * 10)) by done.
  rewrite (Z.mul_mod acc), (Z.mul_mod acc') by done.
  by rewrite Hacc.
Qed.

Lemma ulong_mod_byte x :
  8 ≤ BITS_PER_LONG → (x mod (ULONG_MAX + 1)) mod 256 = x mod 256.
Proof.
  intros Hbits. unfold ULONG_MAX.
  replace (2 ^ BITS_PER_LONG - 1 + 1) with (2 ^ BITS_PER_LONG) by lia.
  apply Z.mod_mod_divide.
  exists (2 ^ (BITS_PER_LONG - 8)).
  change 256 with (2 ^ 8). rewrite <- Z.pow_add_r by lia. f_equal. lia.
Qed.

Lemma simple_strtoul_decimal digits slack acc :
  8 ≤ BITS_PER_LONG →
  Forall (λ c, 48 ≤ c ≤ 57) digits →
  terminated slack →
  simple_strtoul (digits ++ slack) acc mod 256 = decimal_from acc digits mod 256.
Proof.
  intros Hbits Hdigits Hslack. revert acc.
  induction Hdigits as [|c digits Hc _ IH]; intros acc; simpl.
  - destruct slack as [|c slack]; [done|]. simpl in *. by rewrite Hslack.
  - apply isdigit_true in Hc. rewrite Hc, IH.
    apply decimal_from_mod, ulong_mod_byte. done.
Qed.

(** The mask of a write is the written number modulo 256. *)
Lemma write_mask_decimal digits slack :
  8 ≤ BITS_PER_LONG →
  is_decimal digits →
  terminated slack →
  write_mask digits slack = decimal_value digits mod 256.
Proof.
  intros Hbits [_ Hdigits] Hslack. unfold write_mask, decimal_value.
  by apply simple_strtoul_decimal.
Qed.

(** What [relayboard_read] prints for a byte: its decimal digits and a
    newline. *)
Lemma snprintf_byte m :
  0 ≤ m < 256 →
  ∃ digits,
    snprintf_d_nl 5 m = digits ++ [10]
    ∧ is_decimal digits
    ∧ decimal_value digits = m.
Proof.
  intros Hm.
  assert (Forall (λ n : nat, printed_byte_ok (Z.of_nat n)) (seq 0 256)) as Hall.
  { eapply (bool_decide_unpack _). vm_compute. done. }
  rewrite Forall_forall in Hall. specialize (Hall (Z.to_nat m)).
  rewrite Z2Nat.id in Hall by lia.
  destruct Hall as (Htext & Hdec & Hval).
  { apply elem_of_seq. lia. }
  eexists. split_and!; done.
Qed.

(** The parse where it ends with the digits.  A write whose payload is an
    ASCII decimal integer string, with something other than a digit behind
    the digits (further bytes of the payload such as a newline, or else the
    byte that lies behind the copy in memory), hands the written number
    modulo 256 to the command sequence as the target mask.  When the
    sequence goes through, that mask is the new shadow state, and a read
    that delivers data returns its decimal text and a newline. *)
Theorem write_truncates_to_low_8_bits file infos dev digits rest slack s :
  8 ≤ BITS_PER_LONG →
  is_decimal digits →
  terminated (rest ++ slack) →
  files s !! file = Some infos →
  heap s !! device infos = Some dev →
  0 < mutex dev →
  let m := decimal_value digits mod 256 in
  let payload := digits ++ rest in
  write_mask payload slack = m
  ∧ ((∀ k, (1 ≤ k ≤ 27)%nat →
        frame_acked (udev dev) (commit_frames m) (wire s) k = true) →
     ∃ s1,
       relayboard_write file payload true true slack s = Some (Z.of_nat (length payload), s1)
       ∧ wire s1 = wire s ++ (pair (udev dev) <$> commit_frames m)
       ∧ heap s1 !! device infos = Some (with_relay_states m dev)
       ∧ ∀ count jiffies writable,
           4 ≤ count →
           RELAY_READ_FREQ_MAX ≤ time_passed (last_call infos) jiffies →
           4 ≤ writable →
           ∃ text s2,
             relayboard_read file count jiffies writable s1 = Some ((strlen text, text), s2)
             ∧ ∃ digits', text = digits' ++ [10]
                          ∧ is_decimal digits'
                          ∧ decimal_value digits' = m).
Proof.
  intros Hbits Hdigits Hslack Hf Hd Hmutex m payload.
  assert (write_mask payload slack = m) as Hmask.
  { unfold write_mask, payload. rewrite <- app_assoc.
    apply (write_mask_decimal digits (rest ++ slack)); done. }
  split; [done|]. intros Hall.
  assert (payload ≠ []) as Hne.
  { destruct Hdigits as [Hne _]. unfold payload. by destruct digits. }
  rewrite (relayboard_write_eq file infos dev) by done. rewrite Hmask.
  rewrite transmit_acked by (by rewrite commit_frames_length).
  eexists. split; [done|]. simpl. rewrite lookup_insert_eq. split_and!; [done..|].
  intros count jiffies writable Hcount Htime Hw.
  rewrite (relayboard_read_eq file infos (with_relay_states m dev));
    [|done|simpl; apply lookup_insert_eq|done].
  rewrite decide_False by lia. cbv zeta. simpl relay_states.
  destruct (snprintf_byte m) as (digits' & Htext & Hdec & Hval).
  { apply Z.mod_pos_bound. lia. }
  assert (strlen (snprintf_d_nl 5 m) ≤ 4) as Hlen.
  { unfold snprintf_d_nl, strlen. rewrite length_take.
    change (Z.to_nat (5 - 1)) with 4%nat. lia. }
  assert (copy_to_user writable (strlen (snprintf_d_nl 5 m)) = 0) as ->.
  { unfold copy_to_user. lia. }
  rewrite Z.sub_0_r. unfold strlen at 2. rewrite Nat2Z.id, firstn_all.
  eexists _, _. split; [done|]. eauto.
Qed.

(** * Reads and the throttle *)

(** A read either leaves the store as it is or replaces the time stamp of
    the file it came through. *)
Lemma relayboard_read_effect file infos count jiffies writable s r s' :
  files s !! file = Some infos →
  relayboard_read file count jiffies writable s = Some (r, s') →
  (r = (0, []) ∧ s' = s
   ∧ (count < 4 ∨ time_passed (last_call infos) jiffies < RELAY_READ_FREQ_MAX))
  ∨ (s' = set_files (<[file := mk_additions (device infos) jiffies]> (files s)) s
     ∧ ¬ (count < 4 ∨ time_passed (last_call infos) jiffies < RELAY_READ_FREQ_MAX)).
Proof.
  intros Hf Hread.
  destruct (heap s !! device infos) as [dev|] eqn:Hd; first last.
  { unfold relayboard_read in Hread.
    destruct (decide (count < 4)); [unfold ret in Hread; simplify_eq; auto|].
    unfold bind at 1 in Hread. unfold private_data in Hread. rewrite Hf in Hread.
    fold (time_passed (last_call infos) jiffies) in Hread.
    destruct (decide (time_passed _ _ < _)); [unfold ret in Hread; simplify_eq; auto|].
    unfold down, bind, deref in Hread. by rewrite Hd in Hread. }
  destruct (decide (0 < mutex dev)) as [Hm|Hm]; first last.
  { unfold relayboard_read in Hread.
    destruct (decide (count < 4)); [unfold ret in Hread; simplify_eq; auto|].
    unfold bind at 1 in Hread. unfold private_data in Hread. rewrite Hf in Hread.
    fold (time_passed (last_call infos) jiffies) in Hread.
    destruct (decide (time_passed _ _ < _)); [unfold ret in Hread; simplify_eq; auto|].
    unfold down, bind, deref in Hread. rewrite Hd in Hread.
    by rewrite decide_False in Hread. }
  rewrite (relayboard_read_eq file infos dev) in Hread by done.
  cbv zeta in Hread. destruct (decide _); simplify_eq; auto.
Qed.

(** C7: the time stamp of the throttle belongs to the open file.  A read
    through one file leaves the [file_additions] of every other file as it
    was, and every read through the other file gives afterwards what it
    would have given before. *)
Theorem read_leaves_other_handles a b infos_a infos_b count jiffies writable s r s' :
  a ≠ b →
  files s !! a = Some infos_a →
  files s !! b = Some infos_b →
  relayboard_read a count jiffies writable s = Some (r, s') →
  files s' !! b = Some infos_b
  ∧ ∀ count' jiffies' writable',
      fst <$> relayboard_read b count' jiffies' writable' s'
      = fst <$> relayboard_read b count' jiffies' writable' s.
Proof.
  intros Hne Ha Hb Hread.
  destruct (relayboard_read_effect _ _ _ _ _ _ _ _ Ha Hread)
    as [(_ & -> & _)|[-> _]]; [done|].
  simpl. rewrite lookup_insert_ne by done. split; [done|].
  intros. apply relayboard_read_ext; simpl; [|done]. by rewrite lookup_insert_ne.
Qed.

(** C10, as the driver has it: a read that is refused, because [count] is
    below 4 or because the throttle interval has not passed, returns no byte
    and leaves the store, and with it the time stamp of the file, as it was.
    Every read that passes both tests sets the time stamp to the current
    time, whatever [copy_to_user] could deliver; it returns the number of
    bytes delivered, which is zero when nothing could be copied. *)
Theorem refused_read_keeps_last_call file infos dev count jiffies writable s :
  files s !! file = Some infos →
  heap s !! device infos = Some dev →
  0 < mutex dev →
  let refused := count < 4 ∨ time_passed (last_call infos) jiffies < RELAY_READ_FREQ_MAX in
  (refused → relayboard_read file count jiffies writable s = Some ((0, []), s))
  ∧ (¬ refused →
     ∃ n text s',
       relayboard_read file count jiffies writable s = Some ((n, text), s')
       ∧ files s' !! file = Some (mk_additions (device infos) jiffies)
       ∧ n = strlen (snprintf_d_nl 5 (relay_states dev))
             - copy_to_user writable (strlen (snprintf_d_nl 5 (relay_states dev)))
       ∧ text = take (Z.to_nat n) (snprintf_d_nl 5 (relay_states dev))).
Proof.
  intros Hf Hd Hm refused. rewrite (relayboard_read_eq file infos dev) by done.
  fold refused. split; intros Hr.
  - by rewrite decide_True.
  - rewrite decide_False by done. cbv zeta. eexists _, _, _. split; [done|].
    simpl. rewrite lookup_insert_eq. done.
Qed.

(** * Detach *)

Lemma run_reachable cs s rs s' : reachable s → run cs s = Some (rs, s') → reachable s'.
Proof.
  revert s rs s'. induction cs as [|c cs IH]; intros s rs s' Hs Hrun; simpl in Hrun.
  - by simplify_eq.
  - destruct (step c s) as [[r s1]|] eqn:Hstep; [|done].
    destruct (run cs s1) as [[rs1 s2]|] eqn:Hrest; [|done]. simplify_eq.
    eapply IH; [|done]. by eapply reachable_step.
Qed.

(** A file keeps its device alive: the object a file points to is in the
    heap, whatever has happened to the interface. *)
Lemma open_file_keeps_device s file infos :
  reachable s → files s !! file = Some infos →
  ∃ dev, heap s !! device infos = Some dev
         ∧ mutex dev = 1
         ∧ registration dev + handles (device infos) s ≤ kref dev.
Proof.
  intros Hs Hf. apply reachable_consistent in Hs.
  destruct (files_live _ Hs _ _ Hf) as [dev Hd]. exists dev.
  split_and!; [done|by apply (heap_unlocked _ Hs (device infos))|].
  by apply (heap_counted _ Hs).
Qed.

(** X19: an unplugged board does not pull the rug from under open files.
    The disconnect of an interface leaves every file open on its device in
    place, and the device object allocated, with [interface] cleared. *)
Lemma disconnect_leaves_files s intf file infos r s' :
  reachable s →
  files s !! file = Some infos →
  intfdata s !! intf = Some (device infos) →
  step (Disconnect intf) s = Some (r, s') →
  files s' !! file = Some infos
  ∧ ∃ dev', heap s' !! device infos = Some dev' ∧ interface dev' = None.
Proof.
  intros Hreach Hf Hi Hstep.
  pose proof (reachable_step _ _ _ _ Hreach Hstep) as Hreach'.
  apply reachable_consistent in Hreach as Hs.
  destruct (intfdata_bound _ Hs _ _ Hi) as (dev & Hd & Hiface).
  unfold step in Hstep. rewrite decide_True in Hstep by done.
  unfold bind, ret in Hstep.
  rewrite (relayboard_disconnect_eq intf _ dev) in Hstep by eauto using heap_unlocked.
  simplify_eq. simpl in *. split; [done|].
  destruct (open_file_keeps_device _ file infos Hreach' Hf) as (dev' & Hd' & _).
  simpl in Hd'. exists dev'. split; [done|].
  destruct (decide (kref dev - 1 = 0)).
  - by rewrite lookup_delete_eq in Hd'.
  - rewrite lookup_insert_eq in Hd'. by simplify_eq.
Qed.

(** C4, as the driver has it: a file opened before the detach keeps working
    on the detached device.  A write of at least one byte takes the semaphore
    and runs the command sequence as before.  When all 27 frames are
    acknowledged it returns the length of the payload, and all it changes is
    the wire, which has the 27 frames, and the shadow state, which is the
    mask.  Otherwise there is a first frame [k] that is not acknowledged: the
    write returns [-EFAULT] (never [-ENODEV]), and all it changes is the
    wire, which has the frames up to [k]; the shadow state is as before.  A
    read that passes the size test and the throttle returns the shadow
    mask. *)
Theorem detached_device_still_serves_files file infos dev s :
  reachable s →
  files s !! file = Some infos →
  heap s !! device infos = Some dev →
  interface dev = None →
  (∀ user_buffer slack,
     user_buffer ≠ [] →
     let m := write_mask user_buffer slack in
     let ok := frame_acked (udev dev) (commit_frames m) (wire s) in
     ∃ r s',
       relayboard_write file user_buffer true true slack s = Some (r, s')
       ∧ (((∀ k, (1 ≤ k ≤ 27)%nat → ok k = true)
           ∧ r = Z.of_nat (length user_buffer)
           ∧ s' = set_heap (<[device infos := with_relay_states m dev]> (heap s))
                    (set_wire (wire s ++ (pair (udev dev) <$> commit_frames m)) s))
          ∨ (∃ k, (1 ≤ k ≤ 27)%nat
                  ∧ (∀ j, (1 ≤ j < k)%nat → ok j = true)
                  ∧ ok k = false
                  ∧ r = - EFAULT
                  ∧ s' = set_wire
                           (wire s ++ (pair (udev dev) <$> take k (commit_frames m))) s)))
  ∧ (∀ count jiffies writable,
       4 ≤ count →
       RELAY_READ_FREQ_MAX ≤ time_passed (last_call infos) jiffies →
       4 ≤ writable →
       ∃ s',
         relayboard_read file count jiffies writable s
         = Some ((strlen (snprintf_d_nl 5 (relay_states dev)),
                  snprintf_d_nl 5 (relay_states dev)), s')).
Proof.
  intros Hreach Hf Hd Hgone.
  destruct (open_file_keeps_device _ _ _ Hreach Hf) as (dev' & Hd' & Hm & _).
  assert (dev' = dev) as -> by congruence.
  split.
  - intros user_buffer slack Hne m ok.
    rewrite (relayboard_write_eq file infos dev) by (done || lia). fold m.
    destruct (frame_ack_cases (udev dev) (commit_frames m) (wire s))
      as [Hall|(k & Hk & Hbefore & Hfail)]; rewrite commit_frames_length in *.
    + rewrite transmit_acked by (by rewrite commit_frames_length).
      eexists _, _. split; [done|]. left. done.
    + rewrite (transmit_failed _ _ _ k) by (by rewrite ?commit_frames_length).
      eexists _, _. split; [done|]. right. exists k. done.
  - intros count jiffies writable Hcount Htime Hw.
    rewrite (relayboard_read_eq file infos dev) by (done || lia).
    rewrite decide_False by lia. cbv zeta.
    assert (strlen (snprintf_d_nl 5 (relay_states dev)) ≤ 4) as Hlen.
    { unfold snprintf_d_nl, strlen. rewrite length_take.
      change (Z.to_nat (5 - 1)) with 4%nat. lia. }
    assert (copy_to_user writable (strlen (snprintf_d_nl 5 (relay_states dev))) = 0) as ->.
    { unfold copy_to_user. lia. }
    rewrite Z.sub_0_r. unfold strlen at 2. rewrite Nat2Z.id, firstn_all. eauto.
Qed.

(** * Reference counting *)

(** [open] takes its reference before it allocates; when the allocation
    fails the reference stays taken. *)
Lemma failed_open_keeps_reference minor file intf d dev s :
  minors s !! minor = Some intf →
  intfdata s !! intf = Some d →
  heap s !! d = Some dev →
  relayboard_open minor file false s
  = Some (- ENOMEM, set_heap (<[d := with_kref (kref dev + 1) dev]> (heap s)) s).
Proof. intros Hm Hi Hd. rewrite relayboard_open_eq, Hm, Hi, Hd. done. Qed.

(** [probe] has allocated nothing when its allocation fails. *)
Lemma failed_probe_changes_nothing intf device registration s :
  ∃ r, relayboard_probe intf device false registration s = Some (r, s)
       ∧ (r = - ENOMEM ∨ r = - ENODEV).
Proof. unfold relayboard_probe. destruct (decide _); eauto. Qed.

(** * The throttle in numbers *)

(** The time the driver takes to have passed is the difference of the two
    time stamps in the arithmetic of [unsigned long]. *)
Lemma time_passed_mod last timestamp :
  0 ≤ last ≤ ULONG_MAX →
  0 ≤ timestamp ≤ ULONG_MAX →
  time_passed last timestamp = (timestamp - last) mod (ULONG_MAX + 1).
Proof.
  intros Hl Ht. unfold time_passed. destruct (decide (last > timestamp)).
  - apply (Z.mod_unique_pos _ _ (-1)); lia.
  - symmetry. apply Z.mod_small. lia.
Qed.

(** A file that has never been read counts as read at time 0: while
    [jiffies] is below the interval, its first read is refused. *)
Lemma fresh_file_throttled file d count jiffies writable s :
  files s !! file = Some (mk_additions d 0) →
  0 ≤ jiffies < RELAY_READ_FREQ_MAX →
  relayboard_read file count jiffies writable s = Some ((0, []), s).
Proof.
  intros Hf Hj. unfold relayboard_read.
  destruct (decide (count < 4)); [done|].
  unfold bind, private_data. rewrite Hf. simpl.
  rewrite (decide_False (P := 0 > jiffies)) by lia. rewrite decide_True by lia. done.
Qed.

Lemma after_reachable cs : reachable (after cs).
Proof.
  unfold after. destruct (run cs boot) as [[rs s]|] eqn:Hrun; [|apply reachable_boot].
  by apply (run_reachable cs boot rs s reachable_boot).
Qed.

(** * The counter when no allocation fails *)

Lemma step_exact_count c s r s' :
  consistent s → exact_count s → ¬ failed_alloc c →
  step c s = Some (r, s') → exact_count s'.
Proof.
  intros Hs Hex Hclean Hstep. unfold step in Hstep.
  destruct (decide (kernel_contract c s)) as [Hk|]; [|done].
  destruct c as [intf board ok registration|intf|minor file ok|file
                |file user_buffer ok1 ok2 slack|file count jiffies writable]; simpl in Hk.
  - destruct Hk as [Hi Hreg]. unfold bind, ret in Hstep.
    assert (heap s !! next_addr s = None) as Hfresh.
    { apply eq_None_not_Some. intros H. apply (heap_below _ Hs) in H. lia. }
    rewrite relayboard_probe_eq in Hstep; [|done..|by destruct registration].
    destruct (decide _); [|by simplify_eq].
    destruct ok; [|by simplify_eq].
    destruct registration as [e|minor]; simplify_eq; [done|].
    intros d dev. simpl. rewrite lookup_insert_Some. intros [[<- <-]|[_ Hd]].
    + unfold registration. simpl.
      change (handles (next_addr s) _) with (handles (next_addr s) s).
      by rewrite handles_fresh.
    + by apply Hex.
  - unfold bind, ret in Hstep.
    destruct (intfdata s !! intf) as [d0|] eqn:Hi;
      [|by rewrite relayboard_disconnect_unbound in Hstep].
    destruct (intfdata_bound _ Hs _ _ Hi) as (dev0 & Hd0 & Hiface).
    rewrite (relayboard_disconnect_eq intf d0 dev0) in Hstep
      by eauto using heap_unlocked.
    simplify_eq. intros d dev. simpl.
    change (handles d _) with (handles d s).
    pose proof (Hex _ _ Hd0) as Hc0. unfold registration in Hc0. rewrite Hiface in Hc0.
    destruct (decide (kref dev0 - 1 = 0)).
    + rewrite lookup_delete_Some. intros [_ Hd]. by apply Hex.
    + rewrite lookup_insert_Some. intros [[<- <-]|[_ Hd]]; [|by apply Hex].
      unfold registration. simpl. lia.
  - unfold bind, ret in Hstep. rewrite relayboard_open_eq in Hstep.
    destruct (minors s !! minor) as [intf|]; [|by simplify_eq].
    destruct (intfdata s !! intf) as [d0|] eqn:Hi; [|by simplify_eq].
    destruct (heap s !! d0) as [dev0|] eqn:Hd0; [|done].
    cbv zeta in Hstep. destruct ok; [|by destruct Hclean]. simplify_eq.
    intros d dev. simpl.
    change (handles d _)
      with (handles d (set_files (<[file := mk_additions d0 0]> (files s)) s)).
    rewrite handles_insert, Hk. simpl.
    rewrite lookup_insert_Some. intros [[<- <-]|[Hne Hd]].
    + rewrite decide_True by done. pose proof (Hex _ _ Hd0).
      unfold registration in *. simpl. lia.
    + rewrite decide_False by done. pose proof (Hex _ _ Hd). lia.
  - unfold bind, ret in Hstep.
    destruct (files s !! file) as [infos|] eqn:Hf; first last.
    { unfold relayboard_close in Hstep. by rewrite private_data_closed in Hstep. }
    destruct (files_live _ Hs _ _ Hf) as [dev0 Hd0].
    rewrite (relayboard_close_eq file infos dev0) in Hstep by done. simplify_eq.
    intros d dev. simpl.
    change (handles d _) with (handles d (set_files (delete file (files s)) s)).
    rewrite handles_delete, Hf. simpl.
    destruct (decide (kref dev0 - 1 = 0)).
    + rewrite lookup_delete_Some. intros [Hne Hd].
      rewrite decide_False by done. pose proof (Hex _ _ Hd). lia.
    + rewrite lookup_insert_Some. intros [[<- <-]|[Hne Hd]].
      * rewrite decide_True by done. pose proof (Hex _ _ Hd0).
        unfold registration in *. simpl. lia.
      * rewrite decide_False by done. pose proof (Hex _ _ Hd). lia.
  - unfold bind, ret in Hstep.
    destruct (files s !! file) as [infos|] eqn:Hf; first last.
    { unfold relayboard_write in Hstep. by rewrite private_data_closed in Hstep. }
    destruct (files_live _ Hs _ _ Hf) as [dev0 Hd0].
    destruct (decide (user_buffer = [])) as [->|Hne];
      [by rewrite relayboard_write_empty in Hstep|].
    destruct ok1; [|rewrite (relayboard_write_nomem _ infos) in Hstep by done; by simplify_eq].
    destruct ok2; [|rewrite (relayboard_write_fault _ infos) in Hstep by done; by simplify_eq].
    rewrite (relayboard_write_eq file infos dev0) in Hstep; [|done..|]; first last.
    { rewrite (heap_unlocked _ Hs _ _ Hd0). lia. }
    destruct (transmit _ _ _) as [[] w]; simplify_eq; [|done].
    intros d dev. simpl. change (handles d _) with (handles d s).
    rewrite lookup_insert_Some. intros [[<- <-]|[_ Hd]]; [|by apply Hex].
    by apply (Hex _ _ Hd0).
  - destruct (files s !! file) as [infos|] eqn:Hf; first last.
    { unfold relayboard_read in Hstep. destruct (decide (count < 4)).
      - unfold ret in Hstep. by simplify_eq.
      - by rewrite private_data_closed in Hstep. }
    destruct (files_live _ Hs _ _ Hf) as [dev0 Hd0].
    rewrite (relayboard_read_eq file infos dev0) in Hstep; [|done..|]; first last.
    { rewrite (heap_unlocked _ Hs _ _ Hd0). lia. }
    cbv zeta in Hstep. destruct (decide _); simplify_eq; [done|].
    intros d dev Hd. simpl in Hd.
    rewrite handles_insert, Hf. simpl. pose proof (Hex _ _ Hd). lia.
Qed.

Lemma reachable_clean_exact s : reachable_clean s → reachable s ∧ exact_count s.
Proof.
  induction 1 as [|c s r s' _ [Hreach Hex] Hclean Hstep].
  - split; [apply reachable_boot|]. intros d dev. simpl. by rewrite lookup_empty.
  - split; [by eapply reachable_step|].
    apply (step_exact_count c s r s'); try done. by apply reachable_consistent.
Qed.

(** When no allocation has failed, the object is freed by the release that
    leaves it without holder: the close of the last file of a detached
    device, or the detach of a device without open file. *)
Lemma last_close_frees_device s file infos dev r s' :
  reachable_clean s →
  files s !! file = Some infos →
  heap s !! device infos = Some dev →
  step (Close file) s = Some (r, s') →
  (interface dev = None ∧ handles (device infos) s = 1 → heap s' !! device infos = None)
  ∧ (heap s' !! device infos = None → interface dev = None ∧ handles (device infos) s = 1).
Proof.
  intros Hclean Hf Hd Hstep.
  destruct (reachable_clean_exact _ Hclean) as [Hreach Hex].
  pose proof (Hex _ _ Hd) as Hc. pose proof (handles_pos _ _ _ Hf) as Hp.
  pose proof (registration_nonneg dev) as Hr.
  unfold step in Hstep. rewrite decide_True in Hstep by done.
  unfold bind, ret in Hstep.
  rewrite (relayboard_close_eq file infos dev) in Hstep by done. simplify_eq. simpl.
  unfold registration in *. split.
  - intros [Hi Hh]. rewrite Hi in Hc. rewrite decide_True by lia. apply lookup_delete_eq.
  - destruct (decide (kref dev - 1 = 0)) as [Hz|Hz].
    + intros _. destruct (interface dev); [lia|]. split; [done|lia].
    + by rewrite lookup_insert_eq.
Qed.

Lemma detach_frees_unused_device s intf d dev r s' :
  reachable_clean s →
  intfdata s !! intf = Some d →
  heap s !! d = Some dev →
  step (Disconnect intf) s = Some (r, s') →
  heap s' !! d = None ↔ handles d s = 0.
Proof.
  intros Hclean Hi Hd Hstep.
  destruct (reachable_clean_exact _ Hclean) as [Hreach Hex].
  apply reachable_consistent in Hreach as Hs.
  pose proof (Hex _ _ Hd) as Hc.
  destruct (intfdata_bound _ Hs _ _ Hi) as (dev' & Hd' & Hiface).
  assert (dev' = dev) as -> by congruence.
  unfold registration in Hc. rewrite Hiface in Hc.
  unfold step in Hstep. rewrite decide_True in Hstep by done.
  unfold bind, ret in Hstep.
  rewrite (relayboard_disconnect_eq intf d dev) in Hstep by eauto using heap_unlocked.
  simplify_eq. simpl. destruct (decide (kref dev - 1 = 0)).
  - rewrite lookup_delete_eq. split; [lia|done].
  - rewrite lookup_insert_eq. split; [done|lia].
Qed.

(** * The throttle between two reads *)

(** After a read at [t1] that passed both tests, the next read through the
    same file at [t2] is refused when less than [HZ / 2] ticks have passed
    and served otherwise. *)
Lemma second_read file infos dev count t2 writable s :
  files s !! file = Some infos →
  heap s !! device infos = Some dev →
  0 < mutex dev →
  4 ≤ count →
  last_call infos ≤ t2 →
  (t2 - last_call infos < RELAY_READ_FREQ_MAX →
   relayboard_read file count t2 writable s = Some ((0, []), s))
  ∧ (RELAY_READ_FREQ_MAX ≤ t2 - last_call infos →
     4 ≤ writable →
     ∃ s', relayboard_read file count t2 writable s
           = Some ((strlen (snprintf_d_nl 5 (relay_states dev)),
                    snprintf_d_nl 5 (relay_states dev)), s')).
Proof.
  intros Hf Hd Hm Hcount Hle.
  rewrite (relayboard_read_eq file infos dev) by done.
  assert (time_passed (last_call infos) t2 = t2 - last_call infos) as ->.
  { unfold time_passed. by rewrite decide_False by lia. }
  split.
  - intros Hlt. by rewrite decide_True by auto.
  - intros Hge Hw. rewrite decide_False by lia. cbv zeta.
    assert (strlen (snprintf_d_nl 5 (relay_states dev)) ≤ 4) as Hlen.
    { unfold snprintf_d_nl, strlen. rewrite length_take.
      change (Z.to_nat (5 - 1)) with 4%nat. lia. }
    assert (copy_to_user writable (strlen (snprintf_d_nl 5 (relay_states dev))) = 0) as ->.
    { unfold copy_to_user. lia. }
    rewrite Z.sub_0_r. unfold strlen at 2. rewrite Nat2Z.id, firstn_all. eauto.
Qed.

(** The loop variable of [for_mask]: shifting a positive mask right by one
    gives zero for 1 and drops the last binary digit otherwise. *)
Lemma for_mask_shift p :
  Z.shiftr (Z.pos p) 1 = match p with
                         | xH => 0
                         | xO q | xI q => Z.pos q
                         end.
Proof. by destruct p. Qed.

(** * Every call, case by case *)

(** What a call returns and leaves behind in a consistent state. *)
Lemma step_inv c s r s' :
  consistent s →
  step c s = Some (r, s') →
  match c with
  | Probe intf board ok registration =>
      heap s !! next_addr s = None
      ∧ ((r.2 = [] ∧ (r.1 = - ENODEV ∨ r.1 = - ENOMEM) ∧ s' = s)
         ∨ (∃ e, registration = inl e ∧ e ≠ 0 ∧ r = (e, [])
                 ∧ s' = set_next_addr (S (next_addr s)) s)
         ∨ (∃ minor, registration = inr minor ∧ minors s !! minor = None ∧ r = (0, [])
                     ∧ s' = set_minors (<[minor := intf]> (minors s))
                              (set_intfdata (<[intf := next_addr s]> (intfdata s))
                                 (set_next_addr (S (next_addr s))
                                    (set_heap (<[next_addr s :=
                                                   mk_relayboard (usb_id board) (Some intf) 1 1 0]>
                                                 (heap s)) s)))))
  | Disconnect intf =>
      ∃ d dev,
        intfdata s !! intf = Some d ∧ heap s !! d = Some dev ∧ interface dev = Some intf
        ∧ r = (0, [])
        ∧ s' = set_heap (if decide (kref dev - 1 = 0)
                         then delete d (heap s)
                         else <[d := with_kref (kref dev - 1) (with_interface None dev)]> (heap s))
                 (set_minors (filter (λ kv, kv.2 ≠ intf) (minors s))
                    (set_intfdata (delete intf (intfdata s)) s))
  | Open minor file ok =>
      files s !! file = None
      ∧ ((r = (- ENODEV, []) ∧ s' = s
          ∧ ∀ intf d, minors s !! minor = Some intf → intfdata s !! intf = Some d → False)
         ∨ ∃ intf d dev,
             minors s !! minor = Some intf ∧ intfdata s !! intf = Some d
             ∧ heap s !! d = Some dev
             ∧ ((ok = true ∧ r = (0, [])
                 ∧ s' = set_files (<[file := mk_additions d 0]> (files s))
                          (set_heap (<[d := with_kref (kref dev + 1) dev]> (heap s)) s))
                ∨ (ok = false ∧ r = (- ENOMEM, [])
                   ∧ s' = set_heap (<[d := with_kref (kref dev + 1) dev]> (heap s)) s)))
  | Close file =>
      ∃ infos dev,
        files s !! file = Some infos ∧ heap s !! device infos = Some dev
        ∧ r = (0, [])
        ∧ s' = set_files (delete file (files s))
                 (set_heap (if decide (kref dev - 1 = 0)
                            then delete (device infos) (heap s)
                            else <[device infos := with_kref (kref dev - 1) dev]> (heap s)) s)
  | Write file user_buffer ok1 ok2 slack =>
      ∃ infos dev,
        files s !! file = Some infos ∧ heap s !! device infos = Some dev
        ∧ ((ok1 = false ∧ r = (- ENOMEM, []) ∧ s' = s)
           ∨ (ok1 = true ∧ ok2 = false ∧ r = (- EFAULT, []) ∧ s' = s)
           ∨ (ok1 = true ∧ ok2 = true
              ∧ ∃ w, (transmit (udev dev) (commit_frames (write_mask user_buffer slack)) (wire s)
                      = (true, w)
                      ∧ r = (Z.of_nat (length user_buffer), [])
                      ∧ s' = set_heap (<[device infos :=
                                           with_relay_states (write_mask user_buffer slack) dev]>
                                         (heap s)) (set_wire w s))
                     ∨ (transmit (udev dev) (commit_frames (write_mask user_buffer slack)) (wire s)
                        = (false, w)
                        ∧ r = (- EFAULT, [])
                        ∧ s' = set_wire w s)))
  | Read file count jiffies writable =>
      (r = (0, []) ∧ s' = s
       ∧ (count < 4
          ∨ ∃ infos, files s !! file = Some infos
                     ∧ time_passed (last_call infos) jiffies < RELAY_READ_FREQ_MAX))
      ∨ ∃ infos dev,
          files s !! file = Some infos ∧ heap s !! device infos = Some dev
          ∧ 4 ≤ count
          ∧ RELAY_READ_FREQ_MAX ≤ time_passed (last_call infos) jiffies
          ∧ r = (strlen (snprintf_d_nl 5 (relay_states dev))
                 - copy_to_user writable (strlen (snprintf_d_nl 5 (relay_states dev))),
                 take (Z.to_nat (strlen (snprintf_d_nl 5 (relay_states dev))
                                 - copy_to_user writable
                                     (strlen (snprintf_d_nl 5 (relay_states dev)))))
                      (snprintf_d_nl 5 (relay_states dev)))
          ∧ s' = set_files (<[file := mk_additions (device infos) jiffies]> (files s)) s
  end.
Proof.
  intros Hs Hstep. unfold step in Hstep.
  destruct (decide (kernel_contract c s)) as [Hk|]; [|done].
  destruct c as [intf board ok registration|intf|minor file ok|file
                |file user_buffer ok1 ok2 slack|file count jiffies writable]; simpl in Hk.
  - destruct Hk as [Hi Hreg]. unfold bind, ret in Hstep.
    assert (heap s !! next_addr s = None) as Hfresh.
    { apply eq_None_not_Some. intros H. apply (heap_below _ Hs) in H. lia. }
    split; [done|].
    rewrite relayboard_probe_eq in Hstep; [|done..|by destruct registration].
    destruct (decide _); [|simplify_eq; left; auto].
    destruct ok; [|simplify_eq; left; auto].
    destruct registration as [e|minor]; simplify_eq.
    + right. left. eauto.
    + right. right. eauto.
  - unfold bind, ret in Hstep.
    destruct (intfdata s !! intf) as [d|] eqn:Hi;
      [|by rewrite relayboard_disconnect_unbound in Hstep].
    destruct (intfdata_bound _ Hs _ _ Hi) as (dev & Hd & Hiface).
    rewrite (relayboard_disconnect_eq intf d dev) in Hstep by eauto using heap_unlocked.
    simplify_eq. eexists d, dev. split_and!; done.
  - unfold bind, ret in Hstep. rewrite relayboard_open_eq in Hstep. split; [done|].
    destruct (minors s !! minor) as [intf|] eqn:Hm; [|simplify_eq; left; split_and!; done].
    destruct (intfdata s !! intf) as [d|] eqn:Hi; first last.
    { simplify_eq. left. split_and!; [done..|]. intros ? ? ? ?. by simplify_eq. }
    destruct (heap s !! d) as [dev|] eqn:Hd; [|done].
    cbv zeta in Hstep. right. exists intf, d, dev. split_and!; [done..|].
    destruct ok; simplify_eq; [left|right]; done.
  - unfold bind, ret in Hstep.
    destruct (files s !! file) as [infos|] eqn:Hf; first last.
    { unfold relayboard_close in Hstep. by rewrite private_data_closed in Hstep. }
    destruct (files_live _ Hs _ _ Hf) as [dev Hd].
    rewrite (relayboard_close_eq file infos dev) in Hstep by done. simplify_eq.
    eexists infos, dev. split_and!; done.
  - unfold bind, ret in Hstep.
    destruct (files s !! file) as [infos|] eqn:Hf; first last.
    { unfold relayboard_write in Hstep. by rewrite private_data_closed in Hstep. }
    destruct (files_live _ Hs _ _ Hf) as [dev Hd].
    exists infos, dev. split_and!; [done..|].
    destruct (decide (user_buffer = [])) as [->|Hne];
      [by rewrite relayboard_write_empty in Hstep|].
    destruct ok1; [|rewrite (relayboard_write_nomem _ infos) in Hstep by done;
                    simplify_eq; left; done].
    destruct ok2; [|rewrite (relayboard_write_fault _ infos) in Hstep by done;
                    simplify_eq; right; left; done].
    rewrite (relayboard_write_eq file infos dev) in Hstep; [|done..|]; first last.
    { rewrite (heap_unlocked _ Hs _ _ Hd). lia. }
    right. right. split_and!; [done..|].
    destruct (transmit _ _ _) as [[] w]; simplify_eq; exists w; [left|right]; done.
  - destruct (files s !! file) as [infos|] eqn:Hf; first last.
    { unfold relayboard_read in Hstep. destruct (decide (count < 4)).
      - unfold ret in Hstep. simplify_eq. left. auto.
      - by rewrite private_data_closed in Hstep. }
    destruct (files_live _ Hs _ _ Hf) as [dev Hd].
    rewrite (relayboard_read_eq file infos dev) in Hstep; [|done..|]; first last.
    { rewrite (heap_unlocked _ Hs _ _ Hd). lia. }
    cbv zeta in Hstep. destruct (decide _) as [[Hc|Ht]|Hno]; simplify_eq.
    + left. auto.
    + left. split_and!; [done..|]. right. eauto.
    + right. exists infos, dev. split_and!; try done; lia.
Qed.

(** * Further properties of the entry points *)

(** X1: the driver faults on a write of zero bytes, and on nothing else.
    In every reachable state, of the calls the kernel can make there (a
    probe of an unbound interface, a disconnect of a bound one, an open of a
    new file, a close, write or read of an open file), a write of zero bytes
    faults: [kzalloc] gives no buffer to parse.  Every other call returns:
    no entry point dereferences a freed device or finds a semaphore taken,
    and the state it leaves is reachable again. *)
Theorem driver_faults_only_on_empty_write c s :
  reachable s → admissible c s →
  (empty_write c → step c s = None)
  ∧ (¬ empty_write c → ∃ r s', step c s = Some (r, s') ∧ reachable s').
Proof.
  intros Hreach [Hk Hadm]. split.
  { intros Hempty. unfold step. rewrite decide_True by done.
    destruct c as [| | | |file [|] ok1 ok2 slack|]; try done.
    unfold bind. by rewrite relayboard_write_empty. }
  intros Hfull.
  assert (∃ r s', step c s = Some (r, s')) as (r & s' & Hstep);
    [|exists r, s'; split; [done|by eapply reachable_step]].
  pose proof (reachable_consistent _ Hreach) as Hs.
  unfold step. rewrite decide_True by done. unfold bind, ret.
  destruct c as [intf brd ok registration|intf|minor file ok|file
                |file user_buffer ok1 ok2 slack|file count jiffies writable];
    simpl in Hk, Hadm.
  - destruct Hk as [Hi Hreg].
    rewrite relayboard_probe_eq; first last.
    { by destruct registration. }
    { done. }
    { apply eq_None_not_Some. intros H. apply (heap_below _ Hs) in H. lia. }
    destruct (decide _); [|eauto]. destruct ok; [|eauto].
    destruct registration; eauto.
  - destruct Hadm as [d Hi].
    destruct (intfdata_bound _ Hs _ _ Hi) as (dev & Hd & _).
    rewrite (relayboard_disconnect_eq intf d dev) by eauto using heap_unlocked. eauto.
  - rewrite relayboard_open_eq.
    destruct (minors s !! minor) as [intf|]; [|eauto].
    destruct (intfdata s !! intf) as [d|] eqn:Hi; [|eauto].
    destruct (intfdata_bound _ Hs _ _ Hi) as (dev & Hd & _). rewrite Hd.
    cbv zeta. destruct ok; eauto.
  - destruct Hadm as [infos Hf]. destruct (files_live _ Hs _ _ Hf) as [dev Hd].
    rewrite (relayboard_close_eq file infos dev) by done. eauto.
  - destruct Hadm as [infos Hf]. destruct (files_live _ Hs _ _ Hf) as [dev Hd].
    assert (user_buffer ≠ []) as Hne by (by intros ->).
    destruct ok1; [|rewrite (relayboard_write_nomem _ infos) by done; eauto].
    destruct ok2; [|rewrite (relayboard_write_fault _ infos) by done; eauto].
    rewrite (relayboard_write_eq file infos dev); [|done..|]; first last.
    { rewrite (heap_unlocked _ Hs _ _ Hd). lia. }
    destruct (transmit _ _ _) as [[] w]; eauto.
  - destruct Hadm as [infos Hf]. destruct (files_live _ Hs _ _ Hf) as [dev Hd].
    rewrite (relayboard_read_eq file infos dev); [|done..|]; first last.
    { rewrite (heap_unlocked _ Hs _ _ Hd). lia. }
    cbv zeta. destruct (decide _); eauto.
Qed.

(** X2: between calls every device is at rest.  In every reachable state
    the semaphore of each device is free (each entry point has released
    what it took, on every path), its shadow mask is a byte, and its counter
    is at least 1. *)
Theorem devices_at_rest_between_calls s d dev :
  reachable s → heap s !! d = Some dev →
  mutex dev = 1 ∧ 0 ≤ relay_states dev < 256 ∧ 1 ≤ kref dev.
Proof.
  intros Hreach Hd. apply reachable_consistent in Hreach as Hs.
  pose proof (heap_unlocked _ Hs _ _ Hd). pose proof (heap_byte _ Hs _ _ Hd).
  destruct (heap_counted _ Hs _ _ Hd). done.
Qed.

(** X3: open and close undo each other.  A successful open of a new file
    followed by the close of that file leaves the store exactly as it was
    before the open. *)
Theorem open_close_round_trip minor file s s1 :
  reachable s →
  step (Open minor file true) s = Some ((0, []), s1) →
  step (Close file) s1 = Some ((0, []), s).
Proof.
  intros Hreach Hopen. apply reachable_consistent in Hreach as Hs.
  apply (step_inv _ _ _ _ Hs) in Hopen as [Hnew [(Hr & _)|Hok]].
  { unfold ENODEV in Hr. by simplify_eq. }
  destruct Hok as (intf & d & dev & _ & _ & Hd & [(_ & _ & ->)|(? & _)]); [|done].
  destruct (heap_counted _ Hs _ _ Hd) as [Hk _].
  unfold step. rewrite decide_True by done. unfold bind, ret.
  rewrite (relayboard_close_eq file (mk_additions d 0) (with_kref (kref dev + 1) dev));
    [|simpl; apply lookup_insert_eq..].
  simpl. rewrite decide_False by lia.
  rewrite delete_insert_eq, insert_insert_eq, delete_id by done.
  rewrite insert_id; [by destruct s|].
  rewrite Hd. f_equal. destruct dev; unfold with_kref; simpl. f_equal. lia.
Qed.

(** X4: after the detach the device cannot be opened any more.  An open on
    a minor that led to the interface before its disconnect fails with
    [-ENODEV], takes no reference and changes nothing. *)
Theorem open_after_detach_not_found intf minor file ok s r s1 :
  reachable s →
  minors s !! minor = Some intf →
  step (Disconnect intf) s = Some (r, s1) →
  files s1 !! file = None →
  step (Open minor file ok) s1 = Some ((- ENODEV, []), s1).
Proof.
  intros Hreach Hm Hdis Hnew. apply reachable_consistent in Hreach as Hs.
  apply (step_inv _ _ _ _ Hs) in Hdis as (d & dev & _ & _ & _ & _ & ->).
  unfold step. rewrite decide_True by done. unfold bind, ret.
  rewrite relayboard_open_eq. simpl.
  assert (filter (λ kv : nat * nat, kv.2 ≠ intf) (minors s) !! minor = None) as ->; [|done].
  apply map_lookup_filter_None. right. intros intf' Hm' Hne. simpl in Hne. congruence.
Qed.

(** X5: a probe that fails leaves no trace.  Whatever makes [probe] return
    an error (descriptors that do not match, a failed allocation, a refused
    registration), the heap, the open files, the interface data, the minors
    and the wire are as before; after a refused registration the device
    object has been freed again. *)
Theorem failed_probe_leaves_no_trace intf brd ok registration s r s' :
  reachable s →
  step (Probe intf brd ok registration) s = Some (r, s') →
  r.1 ≠ 0 →
  heap s' = heap s ∧ files s' = files s ∧ intfdata s' = intfdata s
  ∧ minors s' = minors s ∧ wire s' = wire s.
Proof.
  intros Hreach Hstep Hr. apply reachable_consistent in Hreach as Hs.
  apply (step_inv _ _ _ _ Hs) in Hstep
    as [_ [(_ & _ & ->)|[(e & _ & _ & _ & ->)|(minor & _ & _ & -> & _)]]]; done.
Qed.

(** X6: what a successful probe creates.  When [probe] returns 0 the
    descriptors matched (one configuration, [bMaxPower] 48, one interface,
    three endpoints), and exactly one object was added to the heap: at a new
    address, with counter 1, a free semaphore and all relays off, bound to
    the interface and reachable through the minor.  Everything else is as
    before. *)
Theorem successful_probe_creates_device intf brd ok registration s r s' :
  reachable s →
  step (Probe intf brd ok registration) s = Some (r, s') →
  r.1 = 0 →
  (bNumConfigurations brd = 1 ∧ bMaxPower brd = 48
   ∧ bNumInterfaces brd = 1 ∧ bNumEndpoints brd = 3)
  ∧ ∃ minor d,
      registration = inr minor
      ∧ heap s !! d = None
      ∧ heap s' = <[d := mk_relayboard (usb_id brd) (Some intf) 1 1 0]> (heap s)
      ∧ intfdata s' !! intf = Some d
      ∧ minors s' !! minor = Some intf
      ∧ files s' = files s ∧ wire s' = wire s.
Proof.
  intros Hreach Hstep Hr. apply reachable_consistent in Hreach as Hs.
  split.
  - unfold step in Hstep. destruct (decide _); [|done].
    unfold bind, ret, relayboard_probe in Hstep.
    destruct (decide (_ ∧ _)); [done|]. unfold ret in Hstep. simplify_eq.
  - apply (step_inv _ _ _ _ Hs) in Hstep
      as [Hfresh [(_ & Hr' & _)|[(e & _ & He & -> & _)|(minor & -> & _ & _ & ->)]]].
    + unfold ENODEV, ENOMEM in Hr'. lia.
    + done.
    + exists minor, (next_addr s). simpl. rewrite !lookup_insert_eq. done.
Qed.

(** X7: a fresh board reads as all relays off.  After a successful probe,
    an open on the minor the board got succeeds, and a read through the new
    file, once [jiffies] has reached [HZ / 2], returns the text of mask 0:
    the digit 0 and a newline. *)
Theorem fresh_board_reads_all_off intf brd minor file count jiffies writable s s1 :
  reachable s →
  step (Probe intf brd true (inr minor)) s = Some ((0, []), s1) →
  files s1 !! file = None →
  4 ≤ count → 4 ≤ writable → RELAY_READ_FREQ_MAX ≤ jiffies → 0 ≤ jiffies →
  ∃ s2 s3,
    step (Open minor file true) s1 = Some ((0, []), s2)
    ∧ step (Read file count jiffies writable) s2 = Some ((2, [48; 10]), s3).
Proof.
  intros Hreach Hstep Hnew Hcount Hw Hj Hj0. apply reachable_consistent in Hreach as Hs.
  apply (step_inv _ _ _ _ Hs) in Hstep
    as [Hfresh [(_ & Hr' & _)|[(e & ? & _)|(minor' & ? & _ & _ & ->)]]].
  { unfold ENODEV, ENOMEM in Hr'. simpl in Hr'. lia. }
  { done. }
  simplify_eq. simpl in Hnew.
  eexists _, _. split.
  - unfold step. rewrite decide_True by done. unfold bind, ret.
    rewrite relayboard_open_eq. simpl. rewrite !lookup_insert_eq. done.
  - unfold step. rewrite decide_True by done.
    rewrite (relayboard_read_eq file (mk_additions (next_addr s) 0)
               (with_kref 2 (mk_relayboard (usb_id brd) (Some intf) 1 1 0)));
      [|simpl; rewrite ?lookup_insert_eq; done..].
    rewrite decide_False; first last.
    { unfold time_passed. simpl. rewrite decide_False by lia. lia. }
    cbv zeta. simpl relay_states.
    change (snprintf_d_nl 5 0) with [48; 10]. change (strlen [48; 10]) with 2.
    unfold copy_to_user. rewrite Z.max_l by lia.
    replace (2 - 0) with 2 by lia. done.
Qed.

(** X8: a read is passive.  Whatever a read returns, it has sent nothing to
    the board and has changed no device, no binding and no minor; of the
    open files it has changed at most the entry of the file it came
    through. *)
Theorem read_is_passive file count jiffies writable s r s' :
  relayboard_read file count jiffies writable s = Some (r, s') →
  wire s' = wire s ∧ heap s' = heap s ∧ intfdata s' = intfdata s
  ∧ minors s' = minors s ∧ next_addr s' = next_addr s
  ∧ ∀ file', file' ≠ file → files s' !! file' = files s !! file'.
Proof.
  intros Hread. destruct (files s !! file) as [infos|] eqn:Hf.
  - destruct (relayboard_read_effect _ _ _ _ _ _ _ _ Hf Hread) as [(_ & -> & _)|[-> _]];
      [done|].
    simpl. split_and!; try done. intros file' Hne. by rewrite lookup_insert_ne.
  - unfold relayboard_read in Hread. destruct (decide (count < 4)).
    + unfold ret in Hread. by simplify_eq.
    + by rewrite private_data_closed in Hread.
Qed.

Lemma strlen_snprintf_5 n : 1 ≤ strlen (snprintf_d_nl 5 n) ≤ 4.
Proof.
  unfold snprintf_d_nl, strlen. change (Z.to_nat (5 - 1)) with 4%nat.
  generalize (if decide (n < 0) then 45 :: put_dec 10 (- n) [] else put_dec 10 n []).
  intros digits. rewrite length_take, length_app. cbn [length]. lia.
Qed.

(** X9: a read stays within the buffer of the caller.  The number a read
    returns is the number of bytes it delivered; it is at most 4, at most
    [count], and at most the part of the buffer that can be written; and
    the bytes delivered are the beginning of the text of the shadow mask. *)
Theorem read_stays_within_buffer file count jiffies writable s n out s' :
  reachable s →
  0 ≤ count →
  step (Read file count jiffies writable) s = Some ((n, out), s') →
  0 ≤ n ≤ 4 ∧ n ≤ count ∧ n ≤ Z.max 0 writable
  ∧ Z.of_nat (length out) = n
  ∧ (n = 0 ∨ ∃ infos dev,
       files s !! file = Some infos ∧ heap s !! device infos = Some dev
       ∧ out = take (Z.to_nat n) (snprintf_d_nl 5 (relay_states dev))).
Proof.
  intros Hreach Hcount Hstep. apply reachable_consistent in Hreach as Hs.
  apply (step_inv _ _ _ _ Hs) in Hstep
    as [(Hr & _)|(infos & dev & Hf & Hd & Hc & _ & Hr & _)].
  { simplify_eq. simpl. split_and!; try lia; auto. }
  pose proof (strlen_snprintf_5 (relay_states dev)) as Hlen.
  set (text := snprintf_d_nl 5 (relay_states dev)) in *.
  injection Hr as -> ->.
  assert (0 ≤ copy_to_user writable (strlen text) ≤ strlen text) by (unfold copy_to_user; lia).
  split_and!; try lia.
  - unfold copy_to_user. lia.
  - rewrite length_take. unfold strlen in *. lia.
  - right. eauto.
Qed.

(** X10: only a write reaches the board.  Probe, disconnect, open, close and
    read, and a write that fails before its buffer is allocated and copied,
    submit nothing to the transport. *)
Theorem only_write_reaches_board c s r s' :
  reachable s →
  step c s = Some (r, s') →
  ¬ transmits c →
  wire s' = wire s.
Proof.
  intros Hreach Hstep Hno. apply reachable_consistent in Hreach as Hs.
  apply (step_inv _ _ _ _ Hs) in Hstep.
  destruct c as [intf brd ok registration|intf|minor file ok|file
                |file user_buffer ok1 ok2 slack|file count jiffies writable].
  - destruct Hstep as [_ [(_ & _ & ->)|[(e & _ & _ & _ & ->)|(minor & _ & _ & _ & ->)]]]; done.
  - destruct Hstep as (d & dev & _ & _ & _ & _ & ->). done.
  - destruct Hstep as [_ [(_ & -> & _)|(intf & d & dev & _ & _ & _
                                        & [(_ & _ & ->)|(_ & _ & ->)])]]; done.
  - destruct Hstep as (infos & dev & _ & _ & _ & ->). done.
  - destruct Hstep as (infos & dev & _ & _ & [(_ & _ & ->)|[(_ & _ & _ & ->)|(-> & -> & _)]]);
      [done..|]. by destruct Hno.
  - destruct Hstep as [(_ & -> & _)|(infos & dev & _ & _ & _ & _ & _ & ->)]; done.
Qed.

(** X11: a payload that does not begin with a digit switches all relays off.
    The parser accepts no sign and skips no blank: such a payload parses as
    0, so the write commits mask 0 and, when the frames go through, reports
    the whole payload as written. *)
Theorem non_numeric_write_clears_relays file infos dev c rest slack s :
  isdigit c = false →
  files s !! file = Some infos →
  heap s !! device infos = Some dev →
  0 < mutex dev →
  write_mask (c :: rest) slack = 0
  ∧ ((∀ k, (1 ≤ k ≤ 27)%nat →
        frame_acked (udev dev) (commit_frames 0) (wire s) k = true) →
     ∃ s1,
       relayboard_write file (c :: rest) true true slack s
       = Some (Z.of_nat (length (c :: rest)), s1)
       ∧ wire s1 = wire s ++ (pair (udev dev) <$> commit_frames 0)
       ∧ heap s1 !! device infos = Some (with_relay_states 0 dev)).
Proof.
  intros Hc Hf Hd Hm.
  assert (write_mask (c :: rest) slack = 0) as Hmask.
  { unfold write_mask. simpl. by rewrite Hc. }
  split; [done|]. intros Hall.
  rewrite (relayboard_write_eq file infos dev) by done. rewrite Hmask.
  rewrite transmit_acked by (by rewrite commit_frames_length).
  eexists. split; [done|]. simpl. by rewrite lookup_insert_eq.
Qed.

(** * The frames determine the mask *)

Lemma transmit_true u frames w w' :
  transmit u frames w = (true, w') → w' = w ++ (pair u <$> frames).
Proof.
  intros Ht. destruct (transmit_prefix u frames w) as (n & _ & Hw & Hok & _).
  rewrite Ht in Hw, Hok. simpl in Hw, Hok. rewrite Hok in Hw by done.
  by rewrite firstn_all in Hw.
Qed.

(** X12: the frames of a commit determine the mask.  Two commits that start
    from the same state, both go through and leave the same frames on the
    wire were made for masks with the same low 8 bits; for bytes, for the
    same mask.  So no two relay states share a command sequence. *)
Theorem commit_frames_determine_mask d dev m1 m2 s s1 s2 :
  heap s !! d = Some dev →
  relayboard_send_status d m1 s = Some (0, s1) →
  relayboard_send_status d m2 s = Some (0, s2) →
  wire s1 = wire s2 →
  m1 mod 256 = m2 mod 256.
Proof.
  intros Hd H1 H2 Hw. apply commit_frames_inj.
  rewrite (relayboard_send_status_eq d dev) in H1, H2 by done.
  destruct (transmit _ (commit_frames m1) _) as [[] w1] eqn:Ht1;
    [|unfold EFAULT in H1; simplify_eq].
  destruct (transmit _ (commit_frames m2) _) as [[] w2] eqn:Ht2;
    [|unfold EFAULT in H2; simplify_eq].
  apply transmit_true in Ht1, Ht2.
  injection H1 as <-. injection H2 as <-. cbn [wire set_heap set_wire] in Hw.
  rewrite Ht1, Ht2 in Hw. apply app_inv_head in Hw.
  revert Hw. generalize (commit_frames m1) (commit_frames m2).
  induction l as [|f l IH]; intros [|g l'] H; simpl in H; try done.
  injection H as -> Hl. f_equal. by apply IH.
Qed.

(** X13: a write touches its own device only.  Whatever a write through a
    file returns, every other device object, every open file, every binding
    and every minor is as before; of its own device it changes at most the
    shadow mask; and the frames it adds to the wire, at most 27, all go to
    the USB device of its own board. *)
Theorem write_touches_only_its_device file infos user_buffer ok1 ok2 slack s r s' :
  reachable s →
  files s !! file = Some infos →
  step (Write file user_buffer ok1 ok2 slack) s = Some (r, s') →
  (∀ d, d ≠ device infos → heap s' !! d = heap s !! d)
  ∧ files s' = files s ∧ intfdata s' = intfdata s ∧ minors s' = minors s
  ∧ ∃ dev dev' frames,
      heap s !! device infos = Some dev
      ∧ heap s' !! device infos = Some dev'
      ∧ udev dev' = udev dev ∧ interface dev' = interface dev
      ∧ kref dev' = kref dev ∧ mutex dev' = mutex dev
      ∧ wire s' = wire s ++ (pair (udev dev) <$> frames)
      ∧ (length frames ≤ 27)%nat.
Proof.
  intros Hreach Hf Hstep. apply reachable_consistent in Hreach as Hs.
  apply (step_inv _ _ _ _ Hs) in Hstep as (infos' & dev & Hf' & Hd & Hcases).
  assert (infos' = infos) as -> by congruence.
  destruct Hcases as [(_ & _ & ->)|[(_ & _ & _ & ->)|(_ & _ & w & Hw)]].
  - split_and!; try done. exists dev, dev, []. rewrite app_nil_r. split_and!; done || (simpl; lia).
  - split_and!; try done. exists dev, dev, []. rewrite app_nil_r. split_and!; done || (simpl; lia).
  - pose proof (transmit_prefix (udev dev) (commit_frames (write_mask user_buffer slack))
                  (wire s)) as (n & Hn & Hwire & _ & _).
    rewrite commit_frames_length in Hn.
    destruct Hw as [(Ht & _ & ->)|(Ht & _ & ->)]; rewrite Ht in Hwire; simpl in Hwire.
    + simpl. split_and!; try done.
      { intros d Hne. by rewrite lookup_insert_ne. }
      eexists dev, _, _. rewrite lookup_insert_eq. split_and!; try done.
      rewrite length_take. lia.
    + simpl. split_and!; try done.
      eexists dev, dev, _. split_and!; try done.
      rewrite length_take. lia.
Qed.

(** X14: the counter counts the holders.  In every state reached by a run
    in which no allocation of an [open] failed, the counter of each device
    is 1 while the device is attached, plus the number of files open on
    it. *)
Theorem counter_counts_holders s d dev :
  reachable_clean s →
  heap s !! d = Some dev →
  kref dev
  = match interface dev with Some _ => 1 | None => 0 end
    + Z.of_nat (size (filter (λ kv : nat * file_additions, device kv.2 = d) (files s))).
Proof.
  intros Hclean Hd. destruct (reachable_clean_exact _ Hclean) as [_ Hex].
  rewrite (Hex _ _ Hd). done.
Qed.

(** X15: what a read returns can be written back.  The text a read prints
    for the shadow mask of a device, given to a write as payload, parses to
    that same mask, whatever lies behind the payload in memory. *)
Theorem read_text_writes_back s d dev slack :
  8 ≤ BITS_PER_LONG →
  reachable s →
  heap s !! d = Some dev →
  write_mask (snprintf_d_nl 5 (relay_states dev)) slack = relay_states dev.
Proof.
  intros Hbits Hreach Hd. apply reachable_consistent in Hreach as Hs.
  pose proof (heap_byte _ Hs _ _ Hd) as Hbyte.
  destruct (snprintf_byte _ Hbyte) as (digits & -> & Hdec & Hval).
  unfold write_mask. rewrite <- app_assoc.
  change (simple_strtoul (digits ++ [10] ++ slack) 0 mod 256)
    with (write_mask digits ([10] ++ slack)).
  rewrite write_mask_decimal by done. rewrite Hval. apply Z.mod_small. done.
Qed.

(** X16: a device is freed exactly by the release of its last holder.  In a
    run in which no allocation of an [open] failed, a call frees a device
    object if and only if it gives back a reference to it (the disconnect of
    its interface or the close of a file open on it) and the driver and the
    open files held exactly one reference between them. *)
Theorem device_freed_exactly_at_last_release c s r s' d dev :
  reachable_clean s →
  heap s !! d = Some dev →
  step c s = Some (r, s') →
  heap s' !! d = None ↔ releases d c s ∧ registration dev + handles d s = 1.
Proof.
  intros Hclean Hd Hstep.
  destruct (reachable_clean_exact _ Hclean) as [Hreach Hex].
  apply reachable_consistent in Hreach as Hs.
  rewrite <- (Hex _ _ Hd).
  apply (step_inv _ _ _ _ Hs) in Hstep.
  destruct c as [intf brd ok registration|intf|minor file ok|file
                |file user_buffer ok1 ok2 slack|file count jiffies writable]; simpl.
  - destruct Hstep as [Hfresh [(_ & _ & ->)|[(e & _ & _ & _ & ->)|(minor & _ & _ & _ & ->)]]];
      simpl; rewrite ?lookup_insert_ne by congruence; rewrite Hd; (split; [done|by intros [? _]]).
  - destruct Hstep as (d0 & dev0 & Hi & Hd0 & _ & _ & ->). simpl.
    destruct (decide (d0 = d)) as [->|Hne].
    + assert (dev0 = dev) as -> by congruence.
      destruct (decide (kref dev - 1 = 0)).
      * rewrite lookup_delete_eq. split; [intros _; split; [done|lia]|done].
      * rewrite lookup_insert_eq. split; [done|]. intros [_ ?]. lia.
    + destruct (decide (kref dev0 - 1 = 0)).
      * rewrite lookup_delete_ne, Hd by done. split; [done|]. intros [? _]. congruence.
      * rewrite lookup_insert_ne, Hd by done. split; [done|]. intros [? _]. congruence.
  - destruct Hstep as [_ [(_ & -> & _)|(intf & d0 & dev0 & _ & _ & Hd0
                                        & [(_ & _ & ->)|(_ & _ & ->)])]]; simpl.
    + rewrite Hd. (split; [done|by intros [? _]]).
    + destruct (decide (d0 = d)) as [->|Hne].
      * rewrite lookup_insert_eq. (split; [done|by intros [? _]]).
      * rewrite lookup_insert_ne, Hd by done. (split; [done|by intros [? _]]).
    + destruct (decide (d0 = d)) as [->|Hne].
      * rewrite lookup_insert_eq. (split; [done|by intros [? _]]).
      * rewrite lookup_insert_ne, Hd by done. (split; [done|by intros [? _]]).
  - destruct Hstep as (infos & dev0 & Hf & Hd0 & _ & ->). simpl. rewrite Hf. simpl.
    destruct (decide (device infos = d)) as [Heq|Hne].
    + rewrite Heq in *. assert (dev0 = dev) as -> by congruence.
      destruct (decide (kref dev - 1 = 0)).
      * rewrite lookup_delete_eq. split; [intros _; split; [done|lia]|done].
      * rewrite lookup_insert_eq. split; [done|]. intros [_ ?]. lia.
    + destruct (decide (kref dev0 - 1 = 0)).
      * rewrite lookup_delete_ne, Hd by done. split; [done|]. intros [? _]. congruence.
      * rewrite lookup_insert_ne, Hd by done. split; [done|]. intros [? _]. congruence.
  - destruct Hstep as (infos & dev0 & _ & Hd0
                       & [(_ & _ & ->)|[(_ & _ & _ & ->)|(_ & _ & w & [(_ & _ & ->)|(_ & _ & ->)])]]);
      simpl; try (rewrite Hd; (split; [done|by intros [? _]])).
    destruct (decide (device infos = d)) as [Heq|Hne].
    + rewrite Heq, lookup_insert_eq. (split; [done|by intros [? _]]).
    + rewrite lookup_insert_ne, Hd by done. (split; [done|by intros [? _]]).
  - destruct Hstep as [(_ & -> & _)|(infos & dev0 & _ & _ & _ & _ & _ & ->)];
      simpl; rewrite Hd; (split; [done|by intros [? _]]).
Qed.

(** X17: the throttle survives the wrap of the tick counter.  For a file
    last read at [t1], a read at [t2 < t1], when [jiffies] has wrapped
    once, is measured by the ticks that have really passed,
    [t2 + (ULONG_MAX + 1 - t1)]: it is refused while these are fewer than
    [HZ / 2] and served afterwards. *)
Theorem throttle_survives_wrap file infos dev count t2 writable s :
  files s !! file = Some infos →
  heap s !! device infos = Some dev →
  0 < mutex dev →
  4 ≤ count → 4 ≤ writable →
  0 ≤ t2 < last_call infos →
  last_call infos ≤ ULONG_MAX →
  let elapsed := t2 + (ULONG_MAX + 1 - last_call infos) in
  elapsed = (t2 - last_call infos) mod (ULONG_MAX + 1)
  ∧ (elapsed < RELAY_READ_FREQ_MAX →
     relayboard_read file count t2 writable s = Some ((0, []), s))
  ∧ (RELAY_READ_FREQ_MAX ≤ elapsed →
     ∃ s', relayboard_read file count t2 writable s
           = Some ((strlen (snprintf_d_nl 5 (relay_states dev)),
                    snprintf_d_nl 5 (relay_states dev)), s')
           ∧ files s' !! file = Some (mk_additions (device infos) t2)).
Proof.
  intros Hf Hd Hm Hcount Hw Ht Hmax elapsed.
  assert (time_passed (last_call infos) t2 = elapsed) as Htp.
  { unfold time_passed, elapsed. rewrite decide_True by lia. lia. }
  split_and!.
  - rewrite <- Htp. apply time_passed_mod; lia.
  - intros Hlt. rewrite (relayboard_read_eq file infos dev) by done.
    rewrite Htp. by rewrite decide_True by auto.
  - intros Hge. rewrite (relayboard_read_eq file infos dev) by done.
    rewrite Htp. rewrite decide_False by lia. cbv zeta.
    pose proof (strlen_snprintf_5 (relay_states dev)) as Hlen.
    assert (copy_to_user writable (strlen (snprintf_d_nl 5 (relay_states dev))) = 0) as ->.
    { unfold copy_to_user. lia. }
    rewrite Z.sub_0_r. unfold strlen at 2. rewrite Nat2Z.id, firstn_all.
    eexists. split; [done|]. simpl. by rewrite lookup_insert_eq.
Qed.

(** X18: two reads in a row.  After a read through a file has delivered
    data at time [t1], a read through the same file at a later time [t2]
    returns nothing and changes nothing while [t2 - t1 < HZ / 2], and
    delivers the same text again from [t1 + HZ / 2] on, unless a write has
    changed the mask in between. *)
Theorem second_read_after_served_read file count t1 t2 writable s n out s1 :
  reachable s →
  step (Read file count t1 writable) s = Some ((n, out), s1) →
  0 < n →
  4 ≤ writable →
  t1 ≤ t2 →
  (t2 - t1 < RELAY_READ_FREQ_MAX →
   step (Read file count t2 writable) s1 = Some ((0, []), s1))
  ∧ (RELAY_READ_FREQ_MAX ≤ t2 - t1 →
     ∃ s2, step (Read file count t2 writable) s1 = Some ((n, out), s2)).
Proof.
  intros Hreach Hstep Hn Hw Hle.
  pose proof (reachable_step _ _ _ _ Hreach Hstep) as Hreach1.
  apply reachable_consistent in Hreach as Hs.
  apply reachable_consistent in Hreach1 as Hs1.
  apply (step_inv _ _ _ _ Hs) in Hstep
    as [(Hr & _)|(infos & dev & Hf & Hd & Hc & _ & Hr & ->)].
  { simplify_eq. lia. }
  unfold step. rewrite decide_True by done.
  rewrite (relayboard_read_eq file (mk_additions (device infos) t1) dev);
    [|simpl; rewrite ?lookup_insert_eq; done..|]; first last.
  { rewrite (heap_unlocked _ Hs _ _ Hd). lia. }
  assert (time_passed t1 t2 = t2 - t1) as Htp.
  { unfold time_passed. by rewrite decide_False by lia. }
  simpl last_call. rewrite Htp. split.
  - intros Hlt. by rewrite decide_True by auto.
  - intros Hge. rewrite decide_False by lia. cbv zeta. rewrite <- Hr. eauto.
Qed.

Lemma run_reachable_clean cs s rs s' :
  reachable_clean s →
  Forall (λ c, ¬ failed_alloc c) cs →
  run cs s = Some (rs, s') →
  reachable_clean s'.
Proof.
  revert s rs s'. induction cs as [|c cs IH]; intros s rs s' Hs Hall Hrun; simpl in Hrun.
  - by simplify_eq.
  - apply Forall_cons in Hall as [Hc Hall].
    destruct (step c s) as [[r s1]|] eqn:Hstep; [|done].
    destruct (run cs s1) as [[rs1 s2]|] eqn:Hrest; [|done]. simplify_eq.
    eapply IH; [|done..]. by eapply reachable_clean_step.
Qed.

Lemma after_reachable_clean cs :
  Forall (λ c, ¬ failed_alloc c) cs → reachable_clean (after cs).
Proof.
  intros Hall. unfold after.
  destruct (run cs boot) as [[rs s]|] eqn:Hrun; [|apply reachable_clean_boot].
  by apply (run_reachable_clean cs boot rs s reachable_clean_boot).
Qed.

End Driver.


(** * Concrete runs

    The examples run on a kernel with [HZ = 1000] and a 32-bit
    [unsigned long]. *)

Lemma commit_emits_27_frames_witness :
  let s := after 1000 32 ack_all [Probe 0 board true (inr 0%nat)] in
  length (commit_frames 5) = 27%nat
  ∧ ∃ s', relayboard_send_status ack_all 0 5 s = Some (0, s')
          ∧ wire s' = wire s ++ (pair 7%nat <$> commit_frames 5).
Proof.
  intros s.
  destruct (commit_emits_27_frames ack_all 0 (mk_relayboard 7 (Some 0%nat) 1 1 0) 5 s)
    as (_ & Hlen & _ & _ & Hall).
  - vm_compute. reflexivity.
  - split; [exact Hlen|]. apply Hall. intros k _. unfold frame_acked.
    destruct (_ !! _); reflexivity.
Defined.

Lemma failed_commit_keeps_shadow_state_witness :
  let s := after 1000 32 (short_at 5) [Probe 0 board true (inr 0%nat)] in
  ∃ s', relayboard_send_status (short_at 5) 0 5 s = Some (- EFAULT, s')
        ∧ wire s' = wire s ++ (pair 7%nat <$> take 5 (commit_frames 5))
        ∧ heap s' = heap s.
Proof.
  intros s.
  destruct (failed_commit_keeps_shadow_state 1000 32 (short_at 5) 0
              (mk_relayboard 7 (Some 0%nat) 1 1 0) 5 s 5)
    as (s' & Hret & Hwire & Hheap & _).
  - vm_compute. reflexivity.
  - lia.
  - intros j Hj. destruct j as [|[|[|[|[|j]]]]]; try lia; vm_compute; reflexivity.
  - vm_compute. reflexivity.
  - exists s'. split_and!; assumption.
Defined.

Lemma mask_read_back_until_next_commit_witness :
  let opened := [Probe 0 board true (inr 0%nat); Open 0 0 true; Open 0 1 true] in
  let written := opened ++ [Write 0 [51; 48; 48] true true []] in
  let refused := written ++ [Write 1 [55] false true []] in
  let later := refused ++ [Read 0 4 5000 4] in
  ∃ dev, heap (after 1000 32 ack_all later) !! 0%nat = Some dev ∧ relay_states dev = 44.
Proof.
  intros opened written refused later.
  destruct (mask_read_back_until_next_commit 1000 32 ack_all
              (after 1000 32 ack_all opened) 0%nat (mk_additions 0 0)
              [51; 48; 48] true true [] (3, [])
              (after 1000 32 ack_all written) (after 1000 32 ack_all later)
              1%nat (mk_additions 0 0))
    as (dev & Hd & Hm & _).
  - apply after_reachable.
  - vm_compute. reflexivity.
  - vm_compute. reflexivity.
  - simpl. lia.
  - apply (no_commit_step 1000 32 ack_all 0%nat (Write 1 [55] false true [])
             (after 1000 32 ack_all written) (- ENOMEM, [])
             (after 1000 32 ack_all refused)).
    + vm_compute. reflexivity.
    + intros _. vm_compute. reflexivity.
    + apply (no_commit_step 1000 32 ack_all 0%nat (Read 0 4 5000 4)
               (after 1000 32 ack_all refused) (3, [52; 52; 10])
               (after 1000 32 ack_all later)).
      * vm_compute. reflexivity.
      * intros [].
      * apply no_commit_refl.
  - vm_compute. reflexivity.
  - reflexivity.
  - exists dev. split; [exact Hd|]. rewrite Hm. vm_compute. reflexivity.
Defined.

Lemma detached_device_still_serves_files_witness :
  let detached := [Probe 0 board true (inr 0%nat); Open 0 0 true; Disconnect 0] in
  let written := detached ++ [Write 0 [53; 10] true true []] in
  (relayboard_write 32 ack_all 0 [53; 10] true true [] (after 1000 32 ack_all detached)
   = Some (2, after 1000 32 ack_all written)
   ∧ ∃ s', relayboard_read 1000 32 0 4 5000 4 (after 1000 32 ack_all detached)
           = Some ((2, [48; 10]), s'))
  ∧ relayboard_write 32 dead_bus 0 [53; 10] true true [] (after 1000 32 dead_bus detached)
    = Some (- EFAULT, after 1000 32 dead_bus written).
Proof.
  intros detached written. split.
  - destruct (detached_device_still_serves_files 1000 32 ack_all 0%nat (mk_additions 0 0)
                (mk_relayboard 7 None 1 1 0) (after 1000 32 ack_all detached))
      as [Hwrite Hread].
    + apply after_reachable.
    + vm_compute. reflexivity.
    + vm_compute. reflexivity.
    + reflexivity.
    + split.
      * destruct (Hwrite [53; 10] []) as (r & s' & Hw & Hcases); [discriminate|].
        rewrite Hw.
        destruct Hcases as [(_ & Hr & Hs')|(k & _ & _ & Hfail & _)].
        -- rewrite Hr, Hs'. vm_compute. reflexivity.
        -- exfalso. unfold frame_acked in Hfail.
           destruct (_ !! _); discriminate Hfail.
      * apply (Hread 4 5000 4); vm_compute; congruence.
  - destruct (detached_device_still_serves_files 1000 32 dead_bus 0%nat (mk_additions 0 0)
                (mk_relayboard 7 None 1 1 0) (after 1000 32 dead_bus detached))
      as [Hwrite _].
    + apply after_reachable.
    + vm_compute. reflexivity.
    + vm_compute. reflexivity.
    + reflexivity.
    + destruct (Hwrite [53; 10] []) as (r & s' & Hw & Hcases); [discriminate|].
      rewrite Hw.
      destruct Hcases as [(Hall & _)|(k & Hk & Hbefore & _ & Hr & Hs')].
      * exfalso. specialize (Hall 1%nat). vm_compute in Hall.
        discriminate Hall. split; [apply le_n|]. repeat constructor.
      * destruct k as [|[|k]].
        -- exfalso. lia.
        -- rewrite Hr, Hs'. vm_compute. reflexivity.
        -- exfalso. specialize (Hbefore 1%nat). vm_compute in Hbefore.
           discriminate Hbefore. lia.
Defined.

(** C4, as stated, fails: after probe, open and disconnect the device is
    detached, yet a write through the open file is not refused.  On a
    transport that still acknowledges, it returns the payload length, puts
    all 27 frames on the wire and changes the shadow state, and the read
    after it returns the new mask.  On a transport that refuses every frame
    it returns [-EFAULT], not [-ENODEV], after it has submitted a frame. *)
Lemma write_after_detach_runs_the_sequence :
  let detached := [Probe 0 board true (inr 0%nat); Open 0 0 true; Disconnect 0] in
  let written := detached ++ [Write 0 [53; 10] true true []] in
  (interface <$> heap (after 1000 32 ack_all detached) !! 0%nat = Some None
   ∧ step 1000 32 ack_all (Write 0 [53; 10] true true []) (after 1000 32 ack_all detached)
     = Some ((2, []), after 1000 32 ack_all written)
   ∧ length (wire (after 1000 32 ack_all written)) = 27%nat
   ∧ relay_states <$> heap (after 1000 32 ack_all written) !! 0%nat = Some 5
   ∧ fst <$> step 1000 32 ack_all (Read 0 4 5000 4) (after 1000 32 ack_all written)
     = Some (2, [53; 10]))
  ∧ (interface <$> heap (after 1000 32 dead_bus detached) !! 0%nat = Some None
     ∧ step 1000 32 dead_bus (Write 0 [53; 10] true true []) (after 1000 32 dead_bus detached)
       = Some ((- EFAULT, []), after 1000 32 dead_bus written)
     ∧ - EFAULT ≠ - ENODEV
     ∧ length (wire (after 1000 32 dead_bus written)) = 1%nat).
Proof.
  split; split_and!; try (vm_compute; reflexivity). vm_compute. congruence.
Qed.

(** C5 at the failing input: a board is attached, one open fails in its
    allocation, a second open succeeds, the board is detached and the file
    is closed.  No file is left and the device is detached, but the object
    is still in the heap with a count of 1: the reference taken by the
    failed open is never given back.  Without the failed open the same run
    frees the object. *)
Theorem leaked_reference_keeps_device :
  let leaking := [Probe 0 board true (inr 0%nat); Open 0 0 false; Open 0 1 true;
                  Disconnect 0; Close 1] in
  let clean := [Probe 0 board true (inr 0%nat); Open 0 1 true; Disconnect 0; Close 1] in
  (fst <$> run 1000 32 ack_all leaking boot
   = Some [(0, []); (- ENOMEM, []); (0, []); (0, []); (0, [])]
   ∧ files (after 1000 32 ack_all leaking) = ∅
   ∧ heap (after 1000 32 ack_all leaking) !! 0%nat = Some (mk_relayboard 7 None 1 1 0))
  ∧ (fst <$> run 1000 32 ack_all clean boot = Some [(0, []); (0, []); (0, []); (0, [])]
     ∧ files (after 1000 32 ack_all clean) = ∅
     ∧ heap (after 1000 32 ack_all clean) !! 0%nat = None).
Proof. split; split_and!; vm_compute; reflexivity. Qed.

(** C6 at the failing input: a file is opened and read for the first time
    while [jiffies] is below [HZ / 2], as it is after the counter has
    wrapped.  The read returns no data although the file has never been
    read; from [HZ / 2] on the first read returns the mask. *)
Theorem first_read_refused_after_wrap :
  let s := after 1000 32 ack_all [Probe 0 board true (inr 0%nat); Open 0 0 true] in
  files s !! 0%nat = Some (mk_additions 0 0)
  ∧ relayboard_read 1000 32 0 4 100 4 s = Some ((0, []), s)
  ∧ fst <$> relayboard_read 1000 32 0 4 500 4 s = Some (2, [48; 10]).
Proof. split_and!; vm_compute; reflexivity. Qed.

(** C9 at the failing input: an open whose allocation fails returns
    [-ENOMEM] and creates no file, but the count of the device has gone from
    1 to 2. *)
Theorem failed_open_leaks_reference :
  let attached := [Probe 0 board true (inr 0%nat)] in
  let failed := attached ++ [Open 0 0 false] in
  kref <$> heap (after 1000 32 ack_all attached) !! 0%nat = Some 1
  ∧ relayboard_open 0 0 false (after 1000 32 ack_all attached)
    = Some (- ENOMEM, after 1000 32 ack_all failed)
  ∧ files (after 1000 32 ack_all failed) = ∅
  ∧ kref <$> heap (after 1000 32 ack_all failed) !! 0%nat = Some 2.
Proof. split_and!; vm_compute; reflexivity. Qed.

Lemma read_leaves_other_handles_witness :
  let opened := [Probe 0 board true (inr 0%nat); Open 0 0 true; Open 0 1 true] in
  let read := opened ++ [Read 0 4 5000 4] in
  files (after 1000 32 ack_all read) !! 1%nat = Some (mk_additions 0 0)
  ∧ fst <$> relayboard_read 1000 32 1 4 5001 4 (after 1000 32 ack_all read)
    = fst <$> relayboard_read 1000 32 1 4 5001 4 (after 1000 32 ack_all opened).
Proof.
  intros opened read.
  destruct (read_leaves_other_handles 1000 32 0%nat 1%nat (mk_additions 0 0) (mk_additions 0 0)
              4 5000 4 (after 1000 32 ack_all opened) (2, [48; 10])
              (after 1000 32 ack_all read))
    as [Hfile Hsame].
  - lia.
  - vm_compute. reflexivity.
  - vm_compute. reflexivity.
  - vm_compute. reflexivity.
  - split; [exact Hfile|apply Hsame].
Defined.

Lemma write_truncates_to_low_8_bits_witness :
  let opened := [Probe 0 board true (inr 0%nat); Open 0 0 true] in
  write_mask 32 [51; 48; 48] [] = 44
  ∧ fst <$> relayboard_write 32 ack_all 0 [51; 48; 48] true true []
              (after 1000 32 ack_all opened)
    = Some 3
  ∧ fst <$> relayboard_read 1000 32 0 4 5000 4
              (after 1000 32 ack_all (opened ++ [Write 0 [51; 48; 48] true true []]))
    = Some (3, [52; 52; 10]).
Proof.
  intros opened.
  destruct (write_truncates_to_low_8_bits 1000 32 ack_all 0%nat (mk_additions 0 0)
              (mk_relayboard 7 (Some 0%nat) 2 1 0) [51; 48; 48] [] []
              (after 1000 32 ack_all opened))
    as [Hmask Hrun].
  - lia.
  - split; [discriminate|]. repeat constructor; lia.
  - exact I.
  - vm_compute. reflexivity.
  - vm_compute. reflexivity.
  - simpl. lia.
  - split; [exact Hmask|].
    destruct Hrun as (s1 & Hwrite & _ & _ & _).
    + intros k _. unfold frame_acked. destruct (_ !! _); reflexivity.
    + split; [|vm_compute; reflexivity].
      change ([51; 48; 48] ++ []) with [51; 48; 48] in Hwrite.
      rewrite Hwrite. reflexivity.
Defined.

(** C8 at the failing input: the payload is the eight digits 00000300, and
    the byte that lies behind the copy in kernel memory is the digit 5.  The
    written number is 300, with low 8 bits 44.  [relayboard_write] copies
    the payload into a buffer of exactly its length, so nothing ends the
    text, and [simple_strtoul] reads on: it parses 3005, and the mask that
    is committed, stored and read back is 189.  The same holds for the
    three digits 300 alone.  With a newline behind the digits, as the
    payload's last byte, the mask is 44. *)
Theorem unterminated_copy_parses_past_payload :
  let opened := [Probe 0 board true (inr 0%nat); Open 0 0 true] in
  let payload := [48; 48; 48; 48; 48; 51; 48; 48] in
  let behind := [53] in
  let written := opened ++ [Write 0 payload true true behind] in
  (is_decimal payload ∧ decimal_value payload = 300 ∧ 300 mod 256 = 44)
  ∧ write_mask 32 payload behind = 189
  ∧ step 1000 32 ack_all (Write 0 payload true true behind) (after 1000 32 ack_all opened)
    = Some ((8, []), after 1000 32 ack_all written)
  ∧ relay_states <$> heap (after 1000 32 ack_all written) !! 0%nat = Some 189
  ∧ fst <$> step 1000 32 ack_all (Read 0 4 5000 4) (after 1000 32 ack_all written)
    = Some (4, [49; 56; 57; 10])
  ∧ write_mask 32 [51; 48; 48] behind = 189
  ∧ write_mask 32 (payload ++ [10]) behind = 44.
Proof.
  split_and!; try (vm_compute; reflexivity).
  split; [discriminate|]. repeat constructor; lia.
Qed.

Lemma refused_read_keeps_last_call_witness :
  let s := after 1000 32 ack_all
             [Probe 0 board true (inr 0%nat); Open 0 0 true; Read 0 4 5000 4] in
  relayboard_read 1000 32 0 4 5499 4 s = Some ((0, []), s)
  ∧ relayboard_read 1000 32 0 3 9000 4 s = Some ((0, []), s).
Proof.
  intros s. split.
  - apply (refused_read_keeps_last_call 1000 32 0%nat (mk_additions 0 5000)
             (mk_relayboard 7 (Some 0%nat) 2 1 0) 4 5499 4 s);
      [vm_compute; reflexivity|vm_compute; reflexivity|simpl; lia|].
    right. vm_compute. reflexivity.
  - apply (refused_read_keeps_last_call 1000 32 0%nat (mk_additions 0 5000)
             (mk_relayboard 7 (Some 0%nat) 2 1 0) 3 9000 4 s);
      [vm_compute; reflexivity|vm_compute; reflexivity|simpl; lia|].
    left. lia.
Defined.

(** C10, as stated, fails: a read that passes the size test and the throttle
    but cannot copy anything to the caller returns zero bytes and still sets
    the time stamp of the file, here from 0 to 5000. *)
Lemma faulting_read_restarts_interval :
  let opened := [Probe 0 board true (inr 0%nat); Open 0 0 true] in
  let read := opened ++ [Read 0 4 5000 0] in
  last_call <$> files (after 1000 32 ack_all opened) !! 0%nat = Some 0
  ∧ relayboard_read 1000 32 0 4 5000 0 (after 1000 32 ack_all opened)
    = Some ((0, []), after 1000 32 ack_all read)
  ∧ last_call <$> files (after 1000 32 ack_all read) !! 0%nat = Some 5000.
Proof. split_and!; vm_compute; reflexivity. Qed.

(** * The further properties at concrete inputs *)

Lemma driver_faults_only_on_empty_write_witness :
  let s := after 1000 32 ack_all [Probe 0 board true (inr 0%nat); Open 0 0 true] in
  step 1000 32 ack_all (Write 0 [] true true []) s = None
  ∧ ∃ r s',
      step 1000 32 ack_all (Read 0 4 5000 4) s = Some (r, s')
      ∧ reachable 1000 32 ack_all s'.
Proof.
  intros s. split.
  - apply (driver_faults_only_on_empty_write 1000 32 ack_all (Write 0 [] true true []) s).
    + apply after_reachable.
    + split; [exact I|]. exists (mk_additions 0 0). vm_compute. reflexivity.
    + exact I.
  - apply (driver_faults_only_on_empty_write 1000 32 ack_all (Read 0 4 5000 4) s).
    + apply after_reachable.
    + split; [exact I|]. exists (mk_additions 0 0). vm_compute. reflexivity.
    + intros H. exact H.
Defined.

Lemma devices_at_rest_between_calls_witness :
  let dev := mk_relayboard 7 (Some 0%nat) 2 1 44 in
  mutex dev = 1 ∧ 0 ≤ relay_states dev < 256 ∧ 1 ≤ kref dev.
Proof.
  intros dev.
  apply (devices_at_rest_between_calls 1000 32 ack_all
           (after 1000 32 ack_all [Probe 0 board true (inr 0%nat); Open 0 0 true;
                                   Write 0 [51; 48; 48] true true []]) 0%nat dev).
  - apply after_reachable.
  - vm_compute. reflexivity.
Defined.

Lemma open_close_round_trip_witness :
  step 1000 32 ack_all (Close 0)
    (after 1000 32 ack_all [Probe 0 board true (inr 0%nat); Open 0 0 true])
  = Some ((0, []), after 1000 32 ack_all [Probe 0 board true (inr 0%nat)]).
Proof.
  apply (open_close_round_trip 1000 32 ack_all 0%nat).
  - apply after_reachable.
  - vm_compute. reflexivity.
Defined.

Lemma open_after_detach_not_found_witness :
  let detached := after 1000 32 ack_all
                    [Probe 0 board true (inr 0%nat); Open 0 0 true; Disconnect 0] in
  step 1000 32 ack_all (Open 0 1 true) detached = Some ((- ENODEV, []), detached).
Proof.
  intros detached.
  apply (open_after_detach_not_found 1000 32 ack_all 0%nat 0%nat 1%nat true
           (after 1000 32 ack_all [Probe 0 board true (inr 0%nat); Open 0 0 true])
           (0, []) detached).
  - apply after_reachable.
  - vm_compute. reflexivity.
  - vm_compute. reflexivity.
  - vm_compute. reflexivity.
Defined.

Lemma failed_probe_leaves_no_trace_witness :
  let s' := after 1000 32 ack_all [Probe 0 board true (inl (-5))] in
  heap s' = heap boot ∧ files s' = files boot ∧ intfdata s' = intfdata boot
  ∧ minors s' = minors boot ∧ wire s' = wire boot.
Proof.
  intros s'.
  apply (failed_probe_leaves_no_trace 1000 32 ack_all 0%nat board true (inl (-5)) boot
           (-5, []) s').
  - apply reachable_boot.
  - vm_compute. reflexivity.
  - simpl. lia.
Defined.

Lemma successful_probe_creates_device_witness :
  let s' := after 1000 32 ack_all [Probe 0 board true (inr 3%nat)] in
  ∃ minor d,
    (inr 3%nat : Z + nat) = inr minor
    ∧ heap boot !! d = None
    ∧ heap s' = <[d := mk_relayboard (usb_id board) (Some 0%nat) 1 1 0]> (heap boot)
    ∧ intfdata s' !! 0%nat = Some d
    ∧ minors s' !! minor = Some 0%nat
    ∧ files s' = files boot ∧ wire s' = wire boot.
Proof.
  intros s'.
  apply (successful_probe_creates_device 1000 32 ack_all 0%nat board true (inr 3%nat) boot
           (0, []) s').
  - apply reachable_boot.
  - vm_compute. reflexivity.
  - reflexivity.
Defined.

Lemma fresh_board_reads_all_off_witness :
  ∃ s2 s3,
    step 1000 32 ack_all (Open 3 0 true)
      (after 1000 32 ack_all [Probe 0 board true (inr 3%nat)])
    = Some ((0, []), s2)
    ∧ step 1000 32 ack_all (Read 0 4 5000 4) s2 = Some ((2, [48; 10]), s3).
Proof.
  apply (fresh_board_reads_all_off 1000 32 ack_all 0%nat board 3%nat 0%nat 4 5000 4 boot).
  - apply reachable_boot.
  - vm_compute. reflexivity.
  - vm_compute. reflexivity.
  - lia.
  - lia.
  - vm_compute. congruence.
  - lia.
Defined.

Lemma read_is_passive_witness :
  let opened := [Probe 0 board true (inr 0%nat); Open 0 0 true] in
  let s := after 1000 32 ack_all opened in
  let s' := after 1000 32 ack_all (opened ++ [Read 0 4 5000 4]) in
  wire s' = wire s ∧ heap s' = heap s ∧ intfdata s' = intfdata s
  ∧ minors s' = minors s ∧ next_addr s' = next_addr s
  ∧ ∀ file', file' ≠ 0%nat → files s' !! file' = files s !! file'.
Proof.
  intros opened s s'.
  apply (read_is_passive 1000 32 0%nat 4 5000 4 s (2, [48; 10]) s').
  vm_compute. reflexivity.
Defined.

Lemma read_stays_within_buffer_witness :
  let opened := [Probe 0 board true (inr 0%nat); Open 0 0 true] in
  let s := after 1000 32 ack_all opened in
  0 ≤ 1 ≤ 4 ∧ 1 ≤ 100 ∧ 1 ≤ Z.max 0 1
  ∧ Z.of_nat (length [48]) = 1
  ∧ (1 = 0 ∨ ∃ infos dev,
       files s !! 0%nat = Some infos ∧ heap s !! device infos = Some dev
       ∧ [48] = take (Z.to_nat 1) (snprintf_d_nl 5 (relay_states dev))).
Proof.
  intros opened s.
  apply (read_stays_within_buffer 1000 32 ack_all 0%nat 100 5000 1 s 1 [48]
           (after 1000 32 ack_all (opened ++ [Read 0 100 5000 1]))).
  - apply after_reachable.
  - lia.
  - vm_compute. reflexivity.
Defined.

Lemma only_write_reaches_board_witness :
  let attached := [Probe 0 board true (inr 0%nat)] in
  wire (after 1000 32 ack_all (attached ++ [Open 0 0 true]))
  = wire (after 1000 32 ack_all attached).
Proof.
  intros attached.
  apply (only_write_reaches_board 1000 32 ack_all (Open 0 0 true)
           (after 1000 32 ack_all attached) (0, [])).
  - apply after_reachable.
  - vm_compute. reflexivity.
  - intros [].
Defined.

Lemma non_numeric_write_clears_relays_witness : write_mask 32 [45; 49] [] = 0.
Proof.
  apply (non_numeric_write_clears_relays 32 ack_all 0%nat (mk_additions 0 0)
           (mk_relayboard 7 (Some 0%nat) 2 1 0) 45 [49] []
           (after 1000 32 ack_all [Probe 0 board true (inr 0%nat); Open 0 0 true])).
  - reflexivity.
  - vm_compute. reflexivity.
  - vm_compute. reflexivity.
  - simpl. lia.
Defined.

Lemma commit_frames_determine_mask_witness : 5 mod 256 = 261 mod 256.
Proof.
  pose (s := after 1000 32 ack_all [Probe 0 board true (inr 0%nat)]).
  apply (commit_frames_determine_mask ack_all 0%nat (mk_relayboard 7 (Some 0%nat) 1 1 0)
           5 261 s
           (match relayboard_send_status ack_all 0 5 s with
            | Some (_, s1) => s1
            | None => s
            end)
           (match relayboard_send_status ack_all 0 261 s with
            | Some (_, s2) => s2
            | None => s
            end)).
  - vm_compute. reflexivity.
  - vm_compute. reflexivity.
  - vm_compute. reflexivity.
  - vm_compute. reflexivity.
Defined.

Lemma write_touches_only_its_device_witness :
  let opened := [Probe 0 board true (inr 0%nat); Probe 1 board true (inr 1%nat);
                 Open 0 0 true; Open 1 1 true] in
  let s := after 1000 32 ack_all opened in
  let s' := after 1000 32 ack_all (opened ++ [Write 0 [53; 10] true true []]) in
  heap s' !! 1%nat = heap s !! 1%nat ∧ files s' = files s.
Proof.
  intros opened s s'.
  destruct (write_touches_only_its_device 1000 32 ack_all 0%nat (mk_additions 0 0)
              [53; 10] true true [] s (2, []) s')
    as (Hother & Hfiles & _).
  - apply after_reachable.
  - vm_compute. reflexivity.
  - vm_compute. reflexivity.
  - split; [|exact Hfiles]. apply Hother. simpl. lia.
Defined.

Lemma counter_counts_holders_witness :
  let s := after 1000 32 ack_all
             [Probe 0 board true (inr 0%nat); Open 0 0 true; Open 0 1 true] in
  3 = 1 + Z.of_nat (size (filter (λ kv : nat * file_additions, device kv.2 = 0%nat)
                            (files s))).
Proof.
  intros s.
  apply (counter_counts_holders 1000 32 ack_all s 0%nat (mk_relayboard 7 (Some 0%nat) 3 1 0)).
  - apply after_reachable_clean. repeat (apply Forall_cons; split; [intros []|]).
    apply Forall_nil_2.
  - vm_compute. reflexivity.
Defined.

Lemma read_text_writes_back_witness : write_mask 32 (snprintf_d_nl 5 44) [55] = 44.
Proof.
  apply (read_text_writes_back 1000 32 ack_all
           (after 1000 32 ack_all [Probe 0 board true (inr 0%nat); Open 0 0 true;
                                   Write 0 [51; 48; 48] true true []])
           0%nat (mk_relayboard 7 (Some 0%nat) 2 1 44) [55]).
  - lia.
  - apply after_reachable.
  - vm_compute. reflexivity.
Defined.

Lemma device_freed_exactly_at_last_release_witness :
  let detached := [Probe 0 board true (inr 0%nat); Open 0 1 true; Disconnect 0] in
  let s := after 1000 32 ack_all detached in
  let dev := mk_relayboard 7 None 1 1 0 in
  heap (after 1000 32 ack_all (detached ++ [Close 1])) !! 0%nat = None
  ↔ releases 0 (Close 1) s ∧ registration dev + handles 0 s = 1.
Proof.
  intros detached s dev.
  apply (device_freed_exactly_at_last_release 1000 32 ack_all (Close 1) s (0, [])).
  - apply after_reachable_clean. repeat (apply Forall_cons; split; [intros []|]).
    apply Forall_nil_2.
  - vm_compute. reflexivity.
  - vm_compute. reflexivity.
Defined.

Lemma throttle_survives_wrap_witness :
  let s := after 1000 32 ack_all
             [Probe 0 board true (inr 0%nat); Open 0 0 true; Read 0 4 4294967000 4] in
  relayboard_read 1000 32 0 4 100 4 s = Some ((0, []), s).
Proof.
  intros s.
  destruct (throttle_survives_wrap 1000 32 0%nat (mk_additions 0 4294967000)
              (mk_relayboard 7 (Some 0%nat) 2 1 0) 4 100 4 s)
    as (_ & Hrefused & _).
  - vm_compute. reflexivity.
  - vm_compute. reflexivity.
  - simpl. lia.
  - lia.
  - lia.
  - simpl. lia.
  - vm_compute. congruence.
  - apply Hrefused. vm_compute. reflexivity.
Defined.

Lemma second_read_after_served_read_witness :
  let opened := [Probe 0 board true (inr 0%nat); Open 0 0 true] in
  let s1 := after 1000 32 ack_all (opened ++ [Read 0 4 5000 4]) in
  step 1000 32 ack_all (Read 0 4 5499 4) s1 = Some ((0, []), s1)
  ∧ ∃ s2, step 1000 32 ack_all (Read 0 4 5500 4) s1 = Some ((2, [48; 10]), s2).
Proof.
  intros opened s1. split.
  - apply (second_read_after_served_read 1000 32 ack_all 0%nat 4 5000 5499 4
             (after 1000 32 ack_all opened) 2 [48; 10] s1);
      [apply after_reachable|vm_compute; reflexivity|lia|lia|lia|].
    vm_compute. reflexivity.
  - apply (second_read_after_served_read 1000 32 ack_all 0%nat 4 5000 5500 4
             (after 1000 32 ack_all opened) 2 [48; 10] s1);
      [apply after_reachable|vm_compute; reflexivity|lia|lia|lia|].
    vm_compute. congruence.
Defined.

Lemma disconnect_leaves_files_witness :
  let opened := [Probe 0 board true (inr 0%nat); Open 0 0 true] in
  let s' := after 1000 32 ack_all (opened ++ [Disconnect 0]) in
  files s' !! 0%nat = Some (mk_additions 0 0)
  ∧ ∃ dev', heap s' !! 0%nat = Some dev' ∧ interface dev' = None.
Proof.
  intros opened s'.
  apply (disconnect_leaves_files 1000 32 ack_all (after 1000 32 ack_all opened) 0%nat 0%nat
           (mk_additions 0 0) (0, []) s').
  - apply after_reachable.
  - vm_compute. reflexivity.
  - vm_compute. reflexivity.
  - vm_compute. reflexivity.
Defined.
